(** * jupiter-scada: the OPC UA client ([jupiter_scada/opcua/client.py])

    A shallow embedding of [OpcuaClient] and of the data it manages, with the
    properties of the tag cache, the node map and the connection flag.

    Conventions of the embedding.
    - The attributes of the Python object are the fields of [OpcuaClient].
      [LiveTag] instances are mutable objects that the client stores by
      reference and mutates in place, so they live in an object store
      ([heap]) and [_data_store] maps a tag name to the address of its
      object.
    - Every coroutine is a computation in [M]: it takes the world before the
      call and gives the result (a returned value or a raised exception)
      with the world after it.  What the asyncua transport answers during a
      call is an argument of the call ([Transport]).
    - [datetime.utcnow()] reads an arbitrary clock: the n-th reading of the
      process is [clock n].
    - [async with self._lock] has no [await] in its body anywhere in the
      client, so the body runs without interleaving; logging has no effect
      on the client.  Neither is represented.
    - The process is a sequence of calls ([Op]); the tasks of the event loop
      take turns between calls. *)

From Stdlib Require Import ZArith.
From stdpp Require Import base option list strings gmap.

Open Scope string_scope.
Open Scope list_scope.
Open Scope stdpp_scope.

(** ** Values and models *)

(** A tag value is typed [Any]; these are the scalars an OPC UA variant
    carries, and Python's [None]. *)
Inductive PyValue : Type :=
  | PyNone
  | PyBool (b : bool)
  | PyInt (z : Z)
  | PyStr (s : string).

(** [datetime] instants, as a number of microseconds. *)
Definition datetime : Type := Z.

(** A configured tag ([tag.name], [tag.node_id]). *)
Module Tag.
Record t : Type := mk { name : string; node_id : string }.
End Tag.

(** A group of the configuration ([group.tags]). *)
Module TagGroup.
Record t : Type := mk { tags : list Tag.t }.
End TagGroup.

(** The part of [settings] the client reads. *)
Module Settings.
Record t : Type := mk { opc_tags : list TagGroup.t }.
End Settings.

(** The live state of one tag, as the client constructs it. *)
Module LiveTag.
Record t : Type := mk {
  name : string;
  node_id : string;
  value : PyValue;
  status : string;
  timestamp : option datetime
}.

Definition set_value (v : PyValue) (o : t) : t :=
  mk (name o) (node_id o) v (status o) (timestamp o).
Definition set_status (st : string) (o : t) : t :=
  mk (name o) (node_id o) (value o) st (timestamp o).
Definition set_timestamp (ts : option datetime) (o : t) : t :=
  mk (name o) (node_id o) (value o) (status o) ts.
End LiveTag.

(** asyncua's [ua.DataValue], restricted to the attributes the client
    reads: [Value.Value], [StatusCode.name] and [SourceTimestamp].  The
    library declares all three optional; reading an attribute of [None]
    raises [AttributeError]. *)
Module Variant.
Record t : Type := mk { Value : PyValue }.
End Variant.

Module StatusCode.
Record t : Type := mk { name : string }.
End StatusCode.

Module DataValue.
Record t : Type := mk {
  Value : option Variant.t;
  StatusCode : option StatusCode.t;
  SourceTimestamp : option datetime
}.
End DataValue.

(** Handles given out by the transport. *)
Abbreviation Node := nat (only parsing).
Abbreviation Subscription := nat (only parsing).

(** The members of the enumeration [ua.VariantType], by their number. *)
Abbreviation VariantType := nat (only parsing).
Inductive Task : Type := ConnectionManagerTask.

(** Addresses of [LiveTag] objects. *)
Abbreviation loc := nat (only parsing).

(** ** Exceptions and results *)

Inductive Exn : Type :=
  | ConnectionError
  | UaError
  | AttributeError
  | IndexError
  | OSError
  | CancelledError.

(** [except Exception] catches everything but [asyncio.CancelledError],
    which derives from [BaseException]. *)
Definition is_Exception (e : Exn) : bool :=
  match e with CancelledError => false | _ => true end.

Definition is_UaError (e : Exn) : bool :=
  match e with UaError => true | _ => false end.

Definition is_CancelledError (e : Exn) : bool :=
  match e with CancelledError => true | _ => false end.

Inductive Result (A : Type) : Type :=
  | Return (a : A)
  | Raise (e : Exn).
Arguments Return {A} a.
Arguments Raise {A} e.

(** ** The client object and the world around it *)

Record OpcuaClient : Type := mkClient {
  subscription : option Subscription;
  _is_connected : bool;
  _running : bool;
  _connection_task : option Task;
  _data_store : gmap string loc;
  _node_map : gmap Node string
}.

Record World : Type := mkWorld {
  self : OpcuaClient;
  heap : list LiveTag.t;
  clock_reads : nat
}.

Definition set_subscription (x : option Subscription) (c : OpcuaClient) : OpcuaClient :=
  mkClient x (_is_connected c) (_running c) (_connection_task c)
           (_data_store c) (_node_map c).
Definition set_is_connected (x : bool) (c : OpcuaClient) : OpcuaClient :=
  mkClient (subscription c) x (_running c) (_connection_task c)
           (_data_store c) (_node_map c).
Definition set_running (x : bool) (c : OpcuaClient) : OpcuaClient :=
  mkClient (subscription c) (_is_connected c) x (_connection_task c)
           (_data_store c) (_node_map c).
Definition set_connection_task (x : option Task) (c : OpcuaClient) : OpcuaClient :=
  mkClient (subscription c) (_is_connected c) (_running c) x
           (_data_store c) (_node_map c).
Definition set_data_store (x : gmap string loc) (c : OpcuaClient) : OpcuaClient :=
  mkClient (subscription c) (_is_connected c) (_running c) (_connection_task c)
           x (_node_map c).
Definition set_node_map (x : gmap Node string) (c : OpcuaClient) : OpcuaClient :=
  mkClient (subscription c) (_is_connected c) (_running c) (_connection_task c)
           (_data_store c) x.

Definition on_self (f : OpcuaClient → OpcuaClient) (w : World) : World :=
  mkWorld (f (self w)) (heap w) (clock_reads w).
Definition on_heap (f : list LiveTag.t → list LiveTag.t) (w : World) : World :=
  mkWorld (self w) (f (heap w)) (clock_reads w).

(** ** The monad of coroutines *)

Definition M (A : Type) : Type := World → Result A * World.

Global Instance M_ret : MRet M := λ A a w, (Return a, w).
Global Instance M_bind : MBind M := λ A B k m w,
  match m w with
  | (Return a, w') => k a w'
  | (Raise e, w') => (Raise e, w')
  end.

Definition raise {A} (e : Exn) : M A := λ w, (Raise e, w).
Definition gets {A} (f : OpcuaClient → A) : M A := λ w, (Return (f (self w)), w).
Definition modify (f : World → World) : M unit := λ w, (Return tt, f w).

(** [await] of a coroutine of the transport, and a plain call of one of its
    methods: the transport decides the outcome. *)
Definition await {A} (r : Result A) : M A := λ w, (r, w).
Definition call {A} (r : Result A) : M A := λ w, (r, w).

(** [try: body except <class>: handler]. *)
Definition try_except {A} (body : M A) (catches : Exn → bool) (handler : Exn → M A) : M A :=
  λ w, match body w with
       | (Return a, w') => (Return a, w')
       | (Raise e, w') => if catches e then handler e w' else (Raise e, w')
       end.

(** [try: body finally: final]. *)
Definition try_finally {A} (body : M A) (final : M unit) : M A :=
  λ w, match body w with
       | (r, w') =>
           match final w' with
           | (Return _, w'') => (r, w'')
           | (Raise e, w'') => (Raise e, w'')
           end
       end.

(** [for x in xs: body], where [body] may update a local variable [acc]. *)
Fixpoint for_fold {A B} (xs : list A) (acc : B) (body : B → A → M B) : M B :=
  match xs with
  | [] => mret acc
  | x :: xs' => acc' ← body acc x; for_fold xs' acc' body
  end.

Definition for_each {A} (xs : list A) (body : A → M unit) : M unit :=
  for_fold xs tt (λ _, body).

(** [o.attr], which raises when [o] is [None]. *)
Definition getattr {A B} (o : option A) (attr : A → B) : M B :=
  match o with
  | Some a => mret (attr a)
  | None => raise AttributeError
  end.

(** [xs[i]]. *)
Definition getitem {A} (xs : list A) (i : nat) : M A :=
  match xs !! i with
  | Some x => mret x
  | None => raise IndexError
  end.

(** Truth value of a [str]: the empty string is false. *)
Definition str_bool (s : string) : bool :=
  match s with
  | EmptyString => false
  | String _ _ => true
  end.

(** What the asyncua client, subscription and node objects answer during
    one call of a client method. *)
Record Transport : Type := mkTransport {
  client_connect : Result unit;
  client_disconnect : Result unit;
  client_create_subscription : Result Subscription;
  client_get_node : string → Result Node;
  subscribe_data_change : list Node → Result unit;
  client_read_values : list Node → Result (list PyValue);
  client_read_data_values : list Node → Result (list DataValue.t);
  node_read_value : Node → Result PyValue;
  node_write_value : Node → Variant.t → Result unit;
  await_connection_task : Result unit
}.

(** Allocation of a fresh object. *)
Definition new_LiveTag (o : LiveTag.t) : M loc :=
  λ w, (Return (length (heap w)), on_heap (λ h, h ++ [o]) w).

(** Attribute assignment on the object at an address. *)
Definition setattr (l : loc) (f : LiveTag.t → LiveTag.t) : M unit :=
  modify (on_heap (alter f l)).

Section Client.

(** The clock behind [datetime.utcnow()]. *)
Variable clock : nat → datetime.

Definition utcnow : M datetime :=
  λ w, (Return (clock (clock_reads w)),
        mkWorld (self w) (heap w) (S (clock_reads w))).

(** *** [OpcuaClient._initialize_data_store] *)
Definition _initialize_data_store (settings : Settings.t) : M unit :=
  for_each (Settings.opc_tags settings) (λ group,
    for_each (TagGroup.tags group) (λ tag,
      now ← utcnow;
      l ← new_LiveTag (LiveTag.mk (Tag.name tag) (Tag.node_id tag)
                                  PyNone "Uncertain" (Some now));
      modify (on_self (λ c, set_data_store (<[Tag.name tag := l]> (_data_store c)) c)))).

(** *** [OpcuaClient.__init__] *)
Definition blank : World :=
  mkWorld (mkClient None false false None ∅ ∅) [] 0.

Definition __init__ (settings : Settings.t) : World :=
  (_initialize_data_store settings blank).2.

(** *** [OpcuaClient.is_connected] *)
Definition is_connected : M bool := gets _is_connected.

(** *** [OpcuaClient.start] *)
Definition start : M unit :=
  running ← gets _running;
  if running : bool then mret tt
  else
    modify (on_self (set_running true)) ;;
    modify (on_self (set_connection_task (Some ConnectionManagerTask))).

(** *** [OpcuaClient.connect] *)
Definition connect (t : Transport) : M unit :=
  await (client_connect t) ;;
  modify (on_self (set_is_connected true)).

(** *** [OpcuaClient.disconnect] *)
Definition disconnect (t : Transport) : M unit :=
  connected ← is_connected;
  if connected : bool then
    try_finally
      (try_except (await (client_disconnect t)) is_Exception (λ _, mret tt))
      (modify (on_self (set_is_connected false)) ;;
       modify (on_self (set_subscription None)) ;;
       modify (on_self (set_node_map ∅)))
  else mret tt.

(** *** [OpcuaClient.update_tag_value_from_node] *)
Definition update_tag_value_from_node (node : Node) (data_value : DataValue.t) : M unit :=
  tag_name ← gets (λ c, _node_map c !! node);
  match tag_name with
  | None => mret tt
  | Some tag_name =>
      if negb (str_bool tag_name) then mret tt
      else
        live_tag ← gets (λ c, _data_store c !! tag_name);
        match live_tag with
        | Some live_tag =>
            v ← getattr (DataValue.Value data_value) Variant.Value;
            setattr live_tag (LiveTag.set_value v) ;;
            st ← getattr (DataValue.StatusCode data_value) StatusCode.name;
            setattr live_tag (LiveTag.set_status st) ;;
            ts ← match DataValue.SourceTimestamp data_value with
                 | Some ts => mret ts
                 | None => utcnow
                 end;
            setattr live_tag (LiveTag.set_timestamp (Some ts))
        | None => mret tt
        end
  end.

(** *** [OpcuaClient._populate_initial_data] *)
Definition _populate_initial_data (t : Transport) (nodes : list Node) : M unit :=
  try_except
    (values ← await (client_read_values t nodes);
     data_values ← await (client_read_data_values t nodes);
     for_each (imap (λ i node, (i, node)) nodes) (λ '(i, node),
       data_value ← getitem data_values i;
       update_tag_value_from_node node data_value))
    is_Exception (λ _, mret tt).

(** *** [OpcuaClient._initialize_subscriptions] *)
Definition _initialize_subscriptions (t : Transport) (settings : Settings.t) : M unit :=
  connected ← is_connected;
  if negb connected then mret tt
  else
    try_except
      (sub ← await (client_create_subscription t);
       modify (on_self (set_subscription (Some sub))) ;;
       let tags_to_process :=
         group ← Settings.opc_tags settings; TagGroup.tags group in
       nodes_to_subscribe ←
         for_fold tags_to_process [] (λ nodes_to_subscribe tag_config,
           try_except
             (node ← call (client_get_node t (Tag.node_id tag_config));
              modify (on_self (λ c,
                set_node_map (<[node := Tag.name tag_config]> (_node_map c)) c)) ;;
              mret (nodes_to_subscribe ++ [node]))
             is_UaError (λ _, mret nodes_to_subscribe));
       match nodes_to_subscribe with
       | [] => mret tt
       | _ :: _ =>
           await (subscribe_data_change t nodes_to_subscribe) ;;
           _populate_initial_data t nodes_to_subscribe
       end)
      is_Exception (λ _, disconnect t).

(** *** [OpcuaClient._connection_manager]: one turn of the [while] loop,
    up to its [asyncio.sleep]. *)
Definition _connection_manager (t : Transport) (settings : Settings.t) : M unit :=
  running ← gets _running;
  if negb running then mret tt
  else
    connected ← is_connected;
    if negb connected then
      try_except
        (connect t ;; _initialize_subscriptions t settings)
        is_Exception (λ _, disconnect t)
    else mret tt.

(** *** [OpcuaClient.stop] *)
Definition stop (t : Transport) : M unit :=
  running ← gets _running;
  if negb running then mret tt
  else
    modify (on_self (set_running false)) ;;
    task ← gets _connection_task;
    match task with
    | Some _ =>
        try_except (await (await_connection_task t))
                   is_CancelledError (λ _, mret tt)
    | None => mret tt
    end ;;
    disconnect t.

(** *** [OpcuaClient.get_all_tags]: the list holds the stored objects
    themselves.  (Python lists them in insertion order, [map_to_list] in
    the order of the keys.) *)
Definition get_all_tags : M (list loc) :=
  store ← gets _data_store;
  mret ((map_to_list store).*2).

(** *** [OpcuaClient.get_tag_by_name] *)
Definition get_tag_by_name (name : string) : M (option loc) :=
  gets (λ c, _data_store c !! name).

(** *** [OpcuaClient.read_value] *)
Definition read_value (t : Transport) (node_id : string) : M PyValue :=
  connected ← is_connected;
  if negb connected then raise ConnectionError
  else
    try_except
      (node ← call (client_get_node t node_id);
       await (node_read_value t node))
      is_Exception (λ e, raise e).

(** *** [OpcuaClient.write_value].  [ua_Variant] is the constructor
    [ua.Variant(value, variant_type)] of the library, which refuses some
    pairs of a value and a type. *)
Definition write_value (t : Transport)
    (ua_Variant : PyValue → VariantType → Result Variant.t)
    (node_id : string) (value : PyValue) (variant_type : VariantType) : M unit :=
  connected ← is_connected;
  if negb connected then raise ConnectionError
  else
    try_except
      (node ← call (client_get_node t node_id);
       variant ← call (ua_Variant value variant_type);
       await (node_write_value t node variant))
      is_Exception (λ e, raise e).

(** ** The life of the process

    After [__init__], the process is a sequence of calls on the client: by
    the application ([start], [stop], the queries and the one-off reads and
    writes), by the connection manager task (one turn of its loop, or its
    parts [connect], [_initialize_subscriptions] and [disconnect], between
    which other calls can run) and by the transport (a data change
    notification, which runs [update_tag_value_from_node] in a task of its
    own whose exception nobody awaits). *)
Inductive Op : Type :=
  | Start
  | Stop (t : Transport)
  | Connect (t : Transport)
  | Disconnect (t : Transport)
  | InitializeSubscriptions (t : Transport)
  | ConnectionManager (t : Transport)
  | DataChange (node : Node) (data_value : DataValue.t)
  | GetAllTags
  | GetTagByName (name : string)
  | ReadValue (t : Transport) (node_id : string)
  | WriteValue (t : Transport)
      (ua_Variant : PyValue → VariantType → Result Variant.t)
      (node_id : string) (value : PyValue) (variant_type : VariantType).

Definition after {A} (m : M A) (w : World) : World := (m w).2.

Definition step (settings : Settings.t) (op : Op) : World → World :=
  match op with
  | Start => after start
  | Stop t => after (stop t)
  | Connect t => after (connect t)
  | Disconnect t => after (disconnect t)
  | InitializeSubscriptions t => after (_initialize_subscriptions t settings)
  | ConnectionManager t => after (_connection_manager t settings)
  | DataChange node data_value => after (update_tag_value_from_node node data_value)
  | GetAllTags => after get_all_tags
  | GetTagByName name => after (get_tag_by_name name)
  | ReadValue t node_id => after (read_value t node_id)
  | WriteValue t ua_Variant node_id value variant_type =>
      after (write_value t ua_Variant node_id value variant_type)
  end.

Definition run (settings : Settings.t) (ops : list Op) (w : World) : World :=
  foldl (λ w op, step settings op w) w ops.

Definition reachable (settings : Settings.t) (w : World) : Prop :=
  ∃ ops, w = run settings ops (__init__ settings).

(** What a caller holding the reference [l] sees in the world [w]. *)
Definition deref (w : World) (l : loc) : option LiveTag.t := heap w !! l.

(** The names of the configuration. *)
Definition configured_names (settings : Settings.t) : list string :=
  Tag.name <$> (group ← Settings.opc_tags settings; TagGroup.tags group).

(** The tag cache as a caller can read it: for each name, the state of its
    object. *)
Definition cache (w : World) : gmap string LiveTag.t :=
  omap (deref w) (_data_store (self w)).

End Client.

(** ** Properties kept by a coroutine *)

(** [preserves P m]: whatever [m] returns or raises, it takes a world where
    [P] holds to one where [P] holds. *)
Definition preserves {A} (P : World → Prop) (m : M A) : Prop :=
  ∀ w, P w → P (after m w).

(** The state of the connection after a teardown: the flag is down, there
    is no subscription and no node is mapped. *)
Definition torn_down (w : World) : Prop :=
  _is_connected (self w) = false ∧
  subscription (self w) = None ∧
  _node_map (self w) = ∅.

(** A transport call that the client survives: it returns or raises an
    [Exception]. *)
Definition survivable {A} (r : Result A) : bool :=
  match r with
  | Return _ => true
  | Raise e => is_Exception e
  end.


(** The state [_initialize_data_store] gives to a tag. *)
Definition initial_tag (o : LiveTag.t) : Prop :=
  LiveTag.value o = PyNone ∧
  LiveTag.status o = "Uncertain" ∧
  is_Some (LiveTag.timestamp o).

(** The effect of one turn of the inner loop of [_initialize_data_store]. *)
Definition store_tag (clock : nat → datetime) (w : World) (tag : Tag.t) : World :=
  mkWorld
    (set_data_store (<[Tag.name tag := length (heap w)]> (_data_store (self w))) (self w))
    (heap w ++ [LiveTag.mk (Tag.name tag) (Tag.node_id tag) PyNone "Uncertain"
                           (Some (clock (clock_reads w)))])
    (S (clock_reads w)).

(** Every name of the store refers to an object that carries this name. *)
Definition well_stored (w : World) : Prop :=
  ∀ k l, _data_store (self w) !! k = Some l → (LiveTag.name <$> heap w) !! l = Some k.

(** What no call after [__init__] changes: the store, the names of the
    objects, and that their timestamps are set. *)
Definition kept (d : gmap string loc) (ns : list string) (w : World) : Prop :=
  _data_store (self w) = d ∧
  LiveTag.name <$> heap w = ns ∧
  Forall (λ o, is_Some (LiveTag.timestamp o)) (heap w).

(** The names carried by the objects of a list of references. *)
Definition tag_names (w : World) (ls : list loc) : list string :=
  omap (λ l, LiveTag.name <$> deref w l) ls.

(** The assignments of the [finally] block of [disconnect]. *)
Definition teardown (w : World) : World :=
  on_self (λ c, set_node_map ∅ (set_subscription None (set_is_connected false c))) w.

(** While the connected flag is down there is no subscription and no node
    is mapped. *)
Definition settled (w : World) : Prop :=
  _is_connected (self w) = false →
  subscription (self w) = None ∧ _node_map (self w) = ∅.

Definition connected (w : World) : Prop := _is_connected (self w) = true.

(** The heap and the store are those of [w0]. *)
Definition same_cache (w0 w : World) : Prop :=
  _data_store (self w) = _data_store (self w0) ∧ heap w = heap w0.

(** A call during which the transport accepts no connection. *)
Definition never_connects (op : Op) : bool :=
  match op with
  | Connect t | ConnectionManager t =>
      match client_connect t with
      | Return _ => false
      | Raise _ => true
      end
  | _ => true
  end.

(** No connection has succeeded since [w0]. *)
Definition cold (w0 w : World) : Prop :=
  _is_connected (self w) = false ∧ _node_map (self w) = ∅ ∧ same_cache w0 w.

(** ** A plant with two tags

    The configuration, the clock and the servers of the worked examples. *)
Module Plant.

Definition clock : nat → datetime := λ n, (1000 + Z.of_nat n)%Z.

Definition settings : Settings.t :=
  Settings.mk [TagGroup.mk [Tag.mk "A" "ns=2;i=1"; Tag.mk "B" "ns=2;i=2"]].

Definition good (z : Z) (ts : option datetime) : DataValue.t :=
  DataValue.mk (Some (Variant.mk (PyInt z))) (Some (StatusCode.mk "Good")) ts.

(** A server that answers every call; it resolves the two addresses to the
    nodes 1 and 2 and reads A=10 (stamped 5) and B=20 (not stamped). *)
Definition server_up : Transport :=
  mkTransport
    (Return tt) (Return tt) (Return 7)
    (λ node_id, if decide (node_id = "ns=2;i=1") then Return 1 else Return 2)
    (λ _, Return tt)
    (λ _, Return [PyInt 10; PyInt 20])
    (λ _, Return [good 10 (Some 5%Z); good 20 None])
    (λ _, Return (PyInt 10))
    (λ _ _, Return tt)
    (Raise CancelledError).

(** A server that cannot be reached. *)
Definition server_down : Transport :=
  mkTransport
    (Raise OSError) (Raise OSError) (Raise OSError)
    (λ _, Raise OSError) (λ _, Raise OSError) (λ _, Raise OSError)
    (λ _, Raise OSError) (λ _, Raise OSError) (λ _ _, Raise OSError)
    (Raise CancelledError).

(** A server that accepts the session and refuses the subscription. *)
Definition subscription_refused : Transport :=
  mkTransport
    (Return tt) (Raise OSError) (Raise UaError)
    (λ _, Raise UaError) (λ _, Raise UaError) (λ _, Raise UaError)
    (λ _, Raise UaError) (λ _, Raise UaError) (λ _ _, Raise UaError)
    (Raise CancelledError).

Definition started : World := __init__ clock settings.

(** The manager has connected and the bulk read has seeded the cache. *)
Definition live : World :=
  run clock settings [Start; ConnectionManager server_up] started.

(** The session is closed afterwards. *)
Definition dropped : World :=
  run clock settings [Disconnect server_up] live.

End Plant.

(** ** Further vocabulary for the client *)

(** Every name the node map gives out is a configured name. *)
Definition mapped_configured (settings : Settings.t) (w : World) : Prop :=
  ∀ node name, _node_map (self w) !! node = Some name →
               name ∈ configured_names settings.

(** The tags [_initialize_subscriptions] goes through. *)
Definition tags_to_process (settings : Settings.t) : list Tag.t :=
  group ← Settings.opc_tags settings; TagGroup.tags group.

(** The node of a tag, when [client.get_node] returns one. *)
Definition resolved_node (t : Transport) (tag : Tag.t) : option Node :=
  match client_get_node t (Tag.node_id tag) with
  | Return node => Some node
  | Raise _ => None
  end.

(** [client.get_node] returns a node for the tag or raises [ua.UaError],
    which the loop of [_initialize_subscriptions] logs and skips. *)
Definition resolvable (t : Transport) (tag : Tag.t) : Prop :=
  match client_get_node t (Tag.node_id tag) with
  | Return _ => True
  | Raise e => is_UaError e = true
  end.

(** The node map after the loop of [_initialize_subscriptions] over
    resolvable tags. *)
Definition map_tags (t : Transport) (m : gmap Node string) (tags : list Tag.t)
    : gmap Node string :=
  foldl (λ m tag, match resolved_node t tag with
                  | Some node => <[node := Tag.name tag]> m
                  | None => m
                  end) m tags.

(** What a one-off read or write gives on a connected client: the answer
    of the transport, and for a write the refusal of the library to wrap
    the value, which comes before the transport is asked to write. *)
Definition transport_read (t : Transport) (node_id : string) : Result PyValue :=
  match client_get_node t node_id with
  | Return node => node_read_value t node
  | Raise e => Raise e
  end.

Definition transport_write (t : Transport)
    (ua_Variant : PyValue → VariantType → Result Variant.t)
    (node_id : string) (value : PyValue) (variant_type : VariantType) : Result unit :=
  match client_get_node t node_id with
  | Return node =>
      match ua_Variant value variant_type with
      | Return variant => node_write_value t node variant
      | Raise e => Raise e
      end
  | Raise e => Raise e
  end.

(** A server that fails in another way. *)
Module Faults.

(** The address of tag A is unknown to the server; everything else works
    and the bulk read gives B=20. *)
Definition bad_address : Transport :=
  mkTransport
    (Return tt) (Return tt) (Return 8)
    (λ node_id, if decide (node_id = "ns=2;i=1") then Raise UaError else Return 2)
    (λ _, Return tt)
    (λ _, Return [PyInt 20])
    (λ _, Return [Plant.good 20 None])
    (λ _, Return (PyInt 20))
    (λ _ _, Return tt)
    (Raise CancelledError).

End Faults.

(** * The REST endpoints ([jupiter_scada/api/endpoints.py])

    The handler takes what the client call it awaits gives: the method
    [get_all_tag_data] it calls is not a method of [OpcuaClient], so its
    answer is an argument. *)
Module Api.

(** [ua.StatusCode]: its attributes are [value] and [name].  The
    handlers read [StatusCode.Value], an attribute it does not have. *)
Module StatusCode.
Record t : Type := mk { value : Z; name : string }.

Definition Value (status : t) : Result Z := Raise AttributeError.
End StatusCode.

(** [ua.DataValue], with the attributes the handlers read. *)
Module DataValue.
Record t : Type := mk {
  Value : option Variant.t;
  SourceTimestamp : option datetime;
  ServerTimestamp : option datetime;
  StatusCode : option StatusCode.t
}.
End DataValue.

(** The response model [TagData]. *)
Module TagData.
Record t : Type := mk {
  value : PyValue;
  source_timestamp : option datetime;
  server_timestamp : option datetime;
  status_code : Z;
  status_text : string
}.
End TagData.

(** What a handler gives: a response body, an [HTTPException] with its
    status code, or an exception that escapes the handler. *)
Inductive Response (A : Type) : Type :=
  | Ok (body : A)
  | HTTPException (status_code : nat)
  | Escapes (e : Exn).
Arguments Ok {A} body.
Arguments HTTPException {A} status_code.
Arguments Escapes {A} e.

(** [TagData(value=data_value.Value.Value, ...,
    status_code=data_value.StatusCode.Value, ...)]: the arguments are
    evaluated in this order, and reading an attribute of [None] raises
    [AttributeError]. *)
Definition render (data_value : DataValue.t) : Result TagData.t :=
  match DataValue.Value data_value with
  | None => Raise AttributeError
  | Some variant =>
      match DataValue.StatusCode data_value with
      | None => Raise AttributeError
      | Some status =>
          match StatusCode.Value status with
          | Raise e => Raise e
          | Return status_code =>
              Return (TagData.mk (Variant.Value variant)
                                 (DataValue.SourceTimestamp data_value)
                                 (DataValue.ServerTimestamp data_value)
                                 status_code
                                 (StatusCode.name status))
          end
      end
  end.

(** The entry of a tag that is configured and has no data yet. *)
Definition no_data : TagData.t :=
  TagData.mk PyNone None None 0x80000000%Z "NoData".

(** The loop of [get_all_tags] over [all_data.items()]. *)
Fixpoint format_items (items : list (string * option DataValue.t))
    (formatted_tags : gmap string TagData.t) : Result (gmap string TagData.t) :=
  match items with
  | [] => Return formatted_tags
  | (tag_name, data_value) :: items' =>
      match data_value with
      | Some data_value =>
          match render data_value with
          | Return tag_data => format_items items' (<[tag_name := tag_data]> formatted_tags)
          | Raise e => Raise e
          end
      | None => format_items items' (<[tag_name := no_data]> formatted_tags)
      end
  end.

(** [get_all_tags], the handler of [GET /api/tags]. *)
Definition get_all_tags (all_data : Result (gmap string (option DataValue.t)))
    : Response (gmap string TagData.t) :=
  match all_data with
  | Raise e => Escapes e
  | Return all_data =>
      match format_items (map_to_list all_data) ∅ with
      | Return formatted_tags => Ok formatted_tags
      | Raise e => Escapes e
      end
  end.


End Api.

(** * The configuration ([jupiter_scada/core/config.py]) *)
Module Config.

(** An absolute path, its last component first: the parent of a path is
    its tail and the root is the empty list. *)
Abbreviation Path := (list string) (only parsing).


Section FileSystem.

(** Whether [path / ".gitignore"] exists. *)
Variable has_gitignore : list string → bool.


End FileSystem.

End Config.

(** * Data received by a tag *)

(** A data value that comes for [node] is handed to the tag [name]: the
    node map gives this name, and the name is not the empty string, for
    which [update_tag_value_from_node] returns at once. *)
Definition routed (c : OpcuaClient) (node : Node) (name : string) : Prop :=
  _node_map c !! node = Some name ∧ str_bool name = true.

(** [update_tag_value_from_node] raises for this data value: it is handed
    to a tag of the store and has no value or no status code. *)
Definition update_raises (c : OpcuaClient) (node : Node) (data_value : DataValue.t) : Prop :=
  ∃ name, routed c node name ∧
          is_Some (_data_store c !! name) ∧
          (DataValue.Value data_value = None ∨ DataValue.StatusCode data_value = None).

(** The client when the loop of [_initialize_subscriptions] over
    resolvable tags has filled the node map. *)
Definition with_nodes (settings : Settings.t) (t : Transport) (c : OpcuaClient)
    : OpcuaClient :=
  set_node_map (map_tags t (_node_map c) (tags_to_process settings)) c.

(** The bulk read of [_initialize_subscriptions], called in the world [w],
    hands a data value to the tag [name]: the call gets as far as the bulk
    read, the list it reads holds a data value at the position of a node
    that is then mapped to [name], and no update for an earlier position
    raises and ends the loop. *)
Definition bulk_received (settings : Settings.t) (t : Transport) (w : World)
    (name : string) : Prop :=
  _is_connected (self w) = true ∧
  (∃ sub, client_create_subscription t = Return sub) ∧
  Forall (resolvable t) (tags_to_process settings) ∧
  subscribe_data_change t (omap (resolved_node t) (tags_to_process settings)) = Return tt ∧
  (∃ values,
     client_read_values t (omap (resolved_node t) (tags_to_process settings))
     = Return values) ∧
  ∃ data_values i node data_value,
    client_read_data_values t (omap (resolved_node t) (tags_to_process settings))
    = Return data_values ∧
    omap (resolved_node t) (tags_to_process settings) !! i = Some node ∧
    data_values !! i = Some data_value ∧
    routed (with_nodes settings t (self w)) node name ∧
    ∀ j node_j data_value_j,
      j < i →
      omap (resolved_node t) (tags_to_process settings) !! j = Some node_j →
      data_values !! j = Some data_value_j →
      ¬ update_raises (with_nodes settings t (self w)) node_j data_value_j.

(** The call [op], made in the world [w], hands a data value to the tag
    [name]: a notification for a node of the tag, or a bulk read that
    holds a data value for it. *)
Definition received (settings : Settings.t) (op : Op) (w : World) (name : string) : Prop :=
  match op with
  | DataChange node _ => routed (self w) node name
  | InitializeSubscriptions t => bulk_received settings t w name
  | ConnectionManager t =>
      _running (self w) = true ∧
      _is_connected (self w) = false ∧
      client_connect t = Return tt ∧
      bulk_received settings t (on_self (set_is_connected true) w) name
  | _ => False
  end.

(** The tag [name] receives no data during the calls [ops] made from the
    world [w] on. *)
Fixpoint silent (clock : nat → datetime) (settings : Settings.t) (name : string)
    (ops : list Op) (w : World) : Prop :=
  match ops with
  | [] => True
  | op :: ops' =>
      ¬ received settings op w name ∧
      silent clock settings name ops' (step clock settings op w)
  end.

Section Rules.
Context {A B : Type} (P : World → Prop).

Lemma preserves_ret (a : A) : preserves P (mret a).
Proof. by intros w Hw. Qed.

Lemma preserves_raise (e : Exn) : preserves P (raise (A := A) e).
Proof. by intros w Hw. Qed.

Lemma preserves_gets (f : OpcuaClient → A) : preserves P (gets f).
Proof. by intros w Hw. Qed.

Lemma preserves_await (r : Result A) : preserves P (await r).
Proof. by intros w Hw. Qed.

Lemma preserves_call (r : Result A) : preserves P (call r).
Proof. by intros w Hw. Qed.

Lemma preserves_getattr (o : option A) (attr : A → B) : preserves P (getattr o attr).
Proof. by destruct o; intros w Hw. Qed.

Lemma preserves_getitem (xs : list A) (i : nat) : preserves P (getitem xs i).
Proof. unfold getitem. by destruct (xs !! i); intros w Hw. Qed.

Lemma preserves_modify (f : World → World) :
  (∀ w, P w → P (f w)) → preserves P (modify f).
Proof. intros Hf w Hw. by apply Hf. Qed.

Lemma preserves_bind (m : M A) (k : A → M B) :
  preserves P m → (∀ a, preserves P (k a)) → preserves P (m ≫= k).
Proof.
  intros Hm Hk w Hw. specialize (Hm w Hw). revert Hm.
  unfold after, mbind, M_bind. destruct (m w) as [[a|e] w']; simpl; [|done].
  intros Hw'. by apply Hk.
Qed.

Lemma preserves_try_except (body : M A) (catches : Exn → bool) (handler : Exn → M A) :
  preserves P body → (∀ e, preserves P (handler e)) →
  preserves P (try_except body catches handler).
Proof.
  intros Hm Hh w Hw. specialize (Hm w Hw). revert Hm.
  unfold after, try_except. destruct (body w) as [[a|e] w']; simpl; [done|].
  intros Hw'. destruct (catches e); [by apply Hh | done].
Qed.

Lemma preserves_try_finally (body : M A) (final : M unit) :
  preserves P body → preserves P final → preserves P (try_finally body final).
Proof.
  intros Hm Hf w Hw. specialize (Hm w Hw). revert Hm.
  unfold after, try_finally. destruct (body w) as [r w']; simpl.
  intros Hw'. specialize (Hf w' Hw'). revert Hf. unfold after.
  by destruct (final w') as [[[]|e] w''].
Qed.

End Rules.

Lemma preserves_for_fold {A B} (P : World → Prop)
    (xs : list A) (acc : B) (body : B → A → M B) :
  (∀ acc x, preserves P (body acc x)) → preserves P (for_fold xs acc body).
Proof.
  intros Hb. revert acc. induction xs as [|x xs IH]; intros acc; simpl.
  - apply preserves_ret.
  - apply preserves_bind; [apply Hb | intros acc'; apply IH].
Qed.

(** One step through the structure of a coroutine; what is left are its
    assignments and its readings of the clock. *)
Ltac preserves_step :=
  lazymatch goal with
  | |- preserves _ (mret _) => apply preserves_ret
  | |- preserves _ (raise _) => apply preserves_raise
  | |- preserves _ (gets _) => apply preserves_gets
  | |- preserves _ is_connected => apply preserves_gets
  | |- preserves _ (await _) => apply preserves_await
  | |- preserves _ (call _) => apply preserves_call
  | |- preserves _ (getattr _ _) => apply preserves_getattr
  | |- preserves _ (getitem _ _) => apply preserves_getitem
  | |- preserves _ (mbind _ _) => apply preserves_bind; [| intros ?]
  | |- preserves _ (try_except _ _ _) => apply preserves_try_except; [| intros ?]
  | |- preserves _ (try_finally _ _) => apply preserves_try_finally
  | |- preserves _ (for_fold _ _ _) => apply preserves_for_fold; intros ? ?
  | |- preserves _ (for_each _ _) => unfold for_each
  | |- preserves _ (match ?x with _ => _ end) => destruct x
  end.

Ltac preserves_structure := repeat preserves_step.

(** ** [__init__] *)

Section Init.
Variable clock : nat → datetime.

Lemma for_each_store_tag (tags : list Tag.t) (w : World) (body : Tag.t → M unit) :
  (∀ tag w, body tag w = (Return tt, store_tag clock w tag)) →
  for_each tags body w = (Return tt, foldl (store_tag clock) w tags).
Proof.
  intros Hbody. revert w. induction tags as [|tag tags IH]; intros w; [done|].
  unfold for_each in *. simpl. unfold mbind, M_bind. rewrite Hbody. apply IH.
Qed.

Lemma _initialize_data_store_eq (settings : Settings.t) (w : World) :
  _initialize_data_store clock settings w =
  (Return tt, foldl (store_tag clock) w
                (group ← Settings.opc_tags settings; TagGroup.tags group)).
Proof.
  unfold _initialize_data_store. generalize (Settings.opc_tags settings) as groups.
  intros groups. revert w. induction groups as [|g groups IH]; intros w; [done|].
  unfold for_each at 1. simpl. unfold mbind at 1, M_bind at 1.
  rewrite (for_each_store_tag (TagGroup.tags g) w); [|done].
  rewrite foldl_app. apply IH.
Qed.

Lemma store_tags_dom (tags : list Tag.t) (w : World) :
  dom (_data_store (self (foldl (store_tag clock) w tags))) =
  dom (_data_store (self w)) ∪ list_to_set (Tag.name <$> tags).
Proof.
  revert w. induction tags as [|tag tags IH]; intros w; simpl.
  - by rewrite (right_id_L ∅ (∪)).
  - rewrite IH. simpl. rewrite dom_insert_L.
    rewrite (comm_L (∪) {[Tag.name tag]}). by rewrite (assoc_L (∪)).
Qed.

Lemma store_tags_well_stored (tags : list Tag.t) (w : World) :
  well_stored w → well_stored (foldl (store_tag clock) w tags).
Proof.
  revert w. induction tags as [|tag tags IH]; intros w Hw; simpl; [done|].
  apply IH. intros k l. simpl. rewrite fmap_app. simpl.
  destruct (decide (Tag.name tag = k)) as [->|Hne].
  - rewrite lookup_insert_eq. intros [= <-].
    rewrite lookup_app_r; rewrite length_fmap; [|lia]. by rewrite Nat.sub_diag.
  - rewrite lookup_insert_ne; [|done]. intros Hl. apply Hw in Hl.
    by apply lookup_app_l_Some.
Qed.

Lemma store_tags_initial (tags : list Tag.t) (w : World) :
  Forall initial_tag (heap w) → Forall initial_tag (heap (foldl (store_tag clock) w tags)).
Proof.
  revert w. induction tags as [|tag tags IH]; intros w Hw; simpl; [done|].
  apply IH. simpl. apply Forall_app. split; [done|].
  apply Forall_singleton. by repeat split.
Qed.

Lemma store_tags_connection (tags : list Tag.t) (w : World) :
  let w' := foldl (store_tag clock) w tags in
  _is_connected (self w') = _is_connected (self w) ∧
  subscription (self w') = subscription (self w) ∧
  _node_map (self w') = _node_map (self w) ∧
  _running (self w') = _running (self w) ∧
  _connection_task (self w') = _connection_task (self w).
Proof.
  revert w. induction tags as [|tag tags IH]; intros w; simpl; [done|].
  destruct (IH (store_tag clock w tag)) as (->&->&->&->&->). done.
Qed.

(** The objects [_initialize_data_store] builds, one per tag and in the
    order of the tags, each stamped with the reading of the clock taken at
    its turn. *)
Lemma store_tags_heap (tags : list Tag.t) (w : World) :
  heap (foldl (store_tag clock) w tags) =
  heap w ++ imap (λ i tag, LiveTag.mk (Tag.name tag) (Tag.node_id tag) PyNone "Uncertain"
                             (Some (clock (clock_reads w + i)))) tags.
Proof.
  revert w. induction tags as [|tag tags IH]; intros w; simpl.
  - by rewrite app_nil_r.
  - rewrite IH. simpl. rewrite <- app_assoc. simpl. rewrite Nat.add_0_r.
    do 2 f_equal. apply imap_ext. intros i tag' _. simpl.
    by rewrite Nat.add_succ_r.
Qed.

Lemma __init___eq (settings : Settings.t) :
  __init__ clock settings =
  foldl (store_tag clock) blank (group ← Settings.opc_tags settings; TagGroup.tags group).
Proof. unfold __init__. by rewrite _initialize_data_store_eq. Qed.

Lemma __init___dom (settings : Settings.t) :
  dom (_data_store (self (__init__ clock settings))) =
  list_to_set (configured_names settings).
Proof.
  rewrite __init___eq, store_tags_dom. simpl. rewrite dom_empty_L.
  by rewrite (left_id_L ∅ (∪)).
Qed.

Lemma __init___well_stored (settings : Settings.t) :
  well_stored (__init__ clock settings).
Proof.
  rewrite __init___eq. apply store_tags_well_stored. intros k l. simpl.
  by rewrite lookup_empty.
Qed.

Lemma __init___initial (settings : Settings.t) :
  Forall initial_tag (heap (__init__ clock settings)).
Proof. rewrite __init___eq. apply store_tags_initial. simpl. constructor. Qed.

Lemma __init___heap (settings : Settings.t) :
  heap (__init__ clock settings) =
  imap (λ i tag, LiveTag.mk (Tag.name tag) (Tag.node_id tag) PyNone "Uncertain"
                   (Some (clock i))) (tags_to_process settings).
Proof. rewrite __init___eq, store_tags_heap. done. Qed.

Lemma __init___torn_down (settings : Settings.t) :
  torn_down (__init__ clock settings).
Proof.
  rewrite __init___eq. unfold torn_down.
  by destruct (store_tags_connection
                 (group ← Settings.opc_tags settings; TagGroup.tags group) blank)
    as (->&->&->&_).
Qed.

End Init.

(** ** What every call keeps *)

Lemma preserves_utcnow (P : World → Prop) (clock : nat → datetime) :
  (∀ w n, P w → P (mkWorld (self w) (heap w) n)) → preserves P (utcnow clock).
Proof. intros HP w Hw. by apply HP. Qed.

Lemma preserves_setattr (P : World → Prop) (l : loc) (f : LiveTag.t → LiveTag.t) :
  (∀ w, P w → P (on_heap (alter f l) w)) → preserves P (setattr l f).
Proof. intros HP w Hw. by apply HP. Qed.

Ltac unfold_client :=
  progress unfold start, stop, connect, disconnect, _initialize_subscriptions,
    _connection_manager, _populate_initial_data, update_tag_value_from_node,
    get_all_tags, get_tag_by_name, read_value, write_value.

Ltac preserves_client := repeat (preserves_step || unfold_client).

Lemma kept_alter (d : gmap string loc) (ns : list string) (l : loc)
    (f : LiveTag.t → LiveTag.t) (w : World) :
  (∀ o, LiveTag.name (f o) = LiveTag.name o) →
  (∀ o, is_Some (LiveTag.timestamp o) → is_Some (LiveTag.timestamp (f o))) →
  kept d ns w → kept d ns (on_heap (alter f l) w).
Proof.
  intros Hname Hts (Hd & Hns & Hall). split; [done|]. simpl. split.
  - rewrite (list_fmap_alter LiveTag.name f id).
    + rewrite Hns. by apply list_alter_id.
    + apply Forall_forall. intros o _. apply Hname.
  - apply Forall_alter; [done|]. intros o _. apply Hts.
Qed.

Ltac kept_atom :=
  first
    [ apply preserves_modify; intros ? (?&?&?); done
    | apply preserves_utcnow; intros ? ? (?&?&?); done
    | apply preserves_setattr; intros ? ?; apply kept_alter; [done | by eauto | done] ].

Lemma omap_snd_fst {K A B} (f : A → option B) (kls : list (K * A)) (g : K → B) :
  (∀ k l, (k, l) ∈ kls → f l = Some (g k)) → omap f kls.*2 = g <$> kls.*1.
Proof.
  induction kls as [|[k l] kls IH]; intros H; [done|].
  simpl. rewrite (H k l); [|by left]. f_equal.
  apply IH. intros k' l' Hkl. apply H. by right.
Qed.

Section Kept.
Variable clock : nat → datetime.
Variable settings : Settings.t.

Lemma step_kept (d : gmap string loc) (ns : list string) (op : Op) (w : World) :
  kept d ns w → kept d ns (step clock settings op w).
Proof.
  revert w. destruct op; simpl;
    match goal with |- ∀ w, ?P w → ?P (after ?m w) => change (preserves P m) end;
    preserves_client; kept_atom.
Qed.

Lemma run_kept (d : gmap string loc) (ns : list string) (ops : list Op) (w : World) :
  kept d ns w → kept d ns (run clock settings ops w).
Proof.
  revert w. induction ops as [|op ops IH]; intros w Hw; simpl; [done|].
  apply IH. by apply step_kept.
Qed.

Lemma __init___kept :
  let w0 := __init__ clock settings in
  kept (_data_store (self w0)) (LiveTag.name <$> heap w0) w0.
Proof.
  simpl. split; [done|]. split; [done|].
  eapply Forall_impl; [apply __init___initial|]. by intros o (_&_&?).
Qed.

Lemma run_store (ops : list Op) :
  _data_store (self (run clock settings ops (__init__ clock settings))) =
  _data_store (self (__init__ clock settings)).
Proof. by destruct (run_kept _ _ ops _ __init___kept) as (?&_). Qed.

Lemma run_well_stored (ops : list Op) :
  well_stored (run clock settings ops (__init__ clock settings)).
Proof.
  destruct (run_kept _ _ ops _ __init___kept) as (Hd & Hns & _).
  intros k l. rewrite Hd, Hns. apply __init___well_stored.
Qed.

Lemma tag_names_values (w : World) :
  well_stored w →
  tag_names w (map_to_list (_data_store (self w))).*2 =
  (map_to_list (_data_store (self w))).*1.
Proof.
  intros Hw. rewrite <- (list_fmap_id (map_to_list _).*1).
  apply omap_snd_fst. intros k l Hkl.
  apply elem_of_map_to_list in Hkl. unfold deref.
  rewrite <- list_lookup_fmap. by apply Hw.
Qed.

End Kept.

(** ** [disconnect] and the connected flag *)

Lemma disconnect_after (t : Transport) (w : World) :
  after (disconnect t) w = if _is_connected (self w) then teardown w else w.
Proof.
  unfold after, disconnect, is_connected, gets, mbind, M_bind.
  destruct (_is_connected (self w)); [|done].
  unfold try_finally, try_except, await.
  destruct (client_disconnect t) as [[]|e]; [done|]. by destruct (is_Exception e).
Qed.

Lemma disconnect_result (t : Transport) (w : World) :
  (disconnect t w).1 =
  if _is_connected (self w) then
    match client_disconnect t with
    | Return _ => Return tt
    | Raise e => if is_Exception e then Return tt else Raise e
    end
  else Return tt.
Proof.
  unfold disconnect, is_connected, gets, mbind, M_bind.
  destruct (_is_connected (self w)); [|done].
  unfold try_finally, try_except, await.
  destruct (client_disconnect t) as [[]|e]; [done|]. by destruct (is_Exception e).
Qed.

Lemma disconnect_settled (t : Transport) : preserves settled (disconnect t).
Proof.
  intros w Hw. rewrite disconnect_after.
  destruct (_is_connected (self w)); [|done]. by intros _.
Qed.

Lemma disconnect_same_cache (t : Transport) (w0 : World) :
  preserves (same_cache w0) (disconnect t).
Proof.
  intros w Hw. rewrite disconnect_after. by destruct (_is_connected (self w)).
Qed.

Lemma connected_settled (w : World) : connected w → settled w.
Proof. unfold connected, settled. congruence. Qed.

(** [try: body except ...: handler], where the handler restores what the
    body may have broken. *)
Lemma try_except_restores {A} (P Q : World → Prop)
    (body : M A) (catches : Exn → bool) (handler : Exn → M A) :
  preserves P body →
  (∀ e w, P w → Q (after (handler e) w)) →
  (∀ w, P w → Q w) →
  ∀ w, P w → Q (after (try_except body catches handler) w).
Proof.
  intros Hbody Hh HPQ w Hw. specialize (Hbody w Hw). revert Hbody.
  unfold after, try_except. destruct (body w) as [[a|e] w']; simpl; [by auto|].
  intros Hw'. destruct (catches e); [by apply Hh | by auto].
Qed.

Ltac connected_atom :=
  first
    [ apply preserves_modify; intros ? ?; done
    | apply preserves_utcnow; intros ? ? ?; done
    | apply preserves_setattr; intros ? ?; done ].

Ltac settled_atom :=
  first
    [ apply preserves_modify; intros ? ?; unfold settled in *; simpl; done
    | apply preserves_utcnow; intros ? ? ?; done
    | apply preserves_setattr; intros ? ?; done ].

Section Settled.
Variable clock : nat → datetime.
Variable settings : Settings.t.

Lemma _initialize_subscriptions_settled (t : Transport) :
  preserves settled (_initialize_subscriptions clock t settings).
Proof.
  intros w Hw. unfold _initialize_subscriptions.
  unfold after, mbind at 1, M_bind at 1, is_connected at 1, gets. simpl.
  destruct (_is_connected (self w)) eqn:Hc; simpl; [|done].
  match goal with |- settled (?m w).2 => change (settled (after m w)) end.
  apply (try_except_restores connected settled); [| | apply connected_settled | done].
  - preserves_client; connected_atom.
  - intros e w' Hw'. apply disconnect_settled. by apply connected_settled.
Qed.

Lemma connect_settled (t : Transport) : preserves settled (connect t).
Proof. preserves_client. apply preserves_modify. by intros w _ [=]. Qed.

Lemma _connection_manager_settled (t : Transport) :
  preserves settled (_connection_manager clock t settings).
Proof.
  unfold _connection_manager.
  repeat first
    [ apply connect_settled | apply disconnect_settled
    | apply _initialize_subscriptions_settled | preserves_step ].
Qed.

Lemma stop_settled (t : Transport) : preserves settled (stop t).
Proof.
  unfold stop.
  repeat first [ apply disconnect_settled | settled_atom | preserves_step ].
Qed.

Lemma step_settled (op : Op) (w : World) :
  settled w → settled (step clock settings op w).
Proof.
  revert w. destruct op; simpl;
    match goal with |- ∀ w, ?P w → ?P (after ?m w) => change (preserves P m) end.
  - preserves_client; settled_atom.
  - apply stop_settled.
  - apply connect_settled.
  - apply disconnect_settled.
  - apply _initialize_subscriptions_settled.
  - apply _connection_manager_settled.
  - preserves_client; settled_atom.
  - preserves_client; settled_atom.
  - preserves_client; settled_atom.
  - preserves_client; settled_atom.
  - preserves_client; settled_atom.
Qed.

Lemma run_settled (ops : list Op) :
  settled (run clock settings ops (__init__ clock settings)).
Proof.
  assert (∀ w, settled w → settled (run clock settings ops w)) as H.
  { induction ops as [|op ops IH]; intros w Hw; simpl; [done|].
    apply IH. by apply step_settled. }
  apply H. intros _. by destruct (__init___torn_down clock settings) as (_&?&?).
Qed.

End Settled.

(** ** Before any connection succeeds *)

Ltac cold_atom :=
  first
    [ apply preserves_modify; intros ? (?&?&?&?); done
    | apply preserves_utcnow; intros ? ? (?&?&?&?); done ].

Section Cold.
Variable clock : nat → datetime.
Variable settings : Settings.t.

Lemma disconnect_cold (t : Transport) (w0 : World) : preserves (cold w0) (disconnect t).
Proof. intros w Hw. rewrite disconnect_after. pose proof Hw as (Hc&_). by rewrite Hc. Qed.

Lemma connect_cold (t : Transport) (w0 : World) :
  never_connects (Connect t) = true → preserves (cold w0) (connect t).
Proof.
  simpl. intros Ht w Hw. unfold after, connect, await, mbind, M_bind.
  by destruct (client_connect t).
Qed.

Lemma _initialize_subscriptions_cold (t : Transport) (w0 : World) :
  preserves (cold w0) (_initialize_subscriptions clock t settings).
Proof.
  intros w Hw. unfold after, _initialize_subscriptions, is_connected, gets, mbind, M_bind.
  pose proof Hw as (Hc&_). by rewrite Hc.
Qed.

Lemma update_tag_value_from_node_unmapped (node : Node) (data_value : DataValue.t) (w : World) :
  _node_map (self w) !! node = None →
  update_tag_value_from_node clock node data_value w = (Return tt, w).
Proof.
  intros Hnode. unfold update_tag_value_from_node, gets, mbind, M_bind.
  by rewrite Hnode.
Qed.

Lemma update_tag_value_from_node_cold (node : Node) (data_value : DataValue.t) (w0 : World) :
  preserves (cold w0) (update_tag_value_from_node clock node data_value).
Proof.
  intros w Hw. unfold after. rewrite update_tag_value_from_node_unmapped; [done|].
  pose proof Hw as (_&Hm&_). rewrite Hm. apply lookup_empty.
Qed.

Lemma _connection_manager_cold (t : Transport) (w0 : World) :
  never_connects (ConnectionManager t) = true →
  preserves (cold w0) (_connection_manager clock t settings).
Proof.
  intros Ht. unfold _connection_manager.
  repeat first
    [ apply disconnect_cold | by apply connect_cold
    | apply _initialize_subscriptions_cold | preserves_step ].
Qed.

Lemma step_cold (w0 : World) (op : Op) (w : World) :
  never_connects op = true → cold w0 w → cold w0 (step clock settings op w).
Proof.
  intros Hop. revert w. destruct op; simpl;
    match goal with |- ∀ w, ?P w → ?P (after ?m w) => change (preserves P m) end.
  - preserves_client; cold_atom.
  - unfold stop. repeat first [ apply disconnect_cold | cold_atom | preserves_step ].
  - by apply connect_cold.
  - apply disconnect_cold.
  - apply _initialize_subscriptions_cold.
  - by apply _connection_manager_cold.
  - apply update_tag_value_from_node_cold.
  - preserves_client; cold_atom.
  - preserves_client; cold_atom.
  - preserves_client; cold_atom.
  - preserves_client; cold_atom.
Qed.

Lemma run_cold (ops : list Op) :
  Forall (λ op, never_connects op = true) ops →
  cold (__init__ clock settings) (run clock settings ops (__init__ clock settings)).
Proof.
  assert (∀ w0 w, Forall (λ op, never_connects op = true) ops →
                  cold w0 w → cold w0 (run clock settings ops w)) as H.
  { intros w0. induction ops as [|op ops IH]; intros w Hops Hw; simpl; [done|].
    inversion Hops; subst. apply IH; [done|]. by apply step_cold. }
  intros Hops. apply H; [done|].
  destruct (__init___torn_down clock settings) as (?&_&?). by repeat split.
Qed.

End Cold.

(** ** A failed attempt of the connection manager *)

Ltac same_cache_atom :=
  first
    [ apply preserves_modify; intros ? (?&?); done
    | apply preserves_utcnow; intros ? ? (?&?); done ].

Section Attempt.
Variable clock : nat → datetime.
Variable settings : Settings.t.

(** [_populate_initial_data] logs every [Exception] and goes on. *)
Lemma _populate_initial_data_result (t : Transport) (nodes : list Node) (w w' : World) (e : Exn) :
  _populate_initial_data clock t nodes w = (Raise e, w') → is_Exception e = false.
Proof.
  unfold _populate_initial_data, try_except.
  match goal with |- context [match ?b w with _ => _ end] => destruct (b w) as [[[]|e'] w1] end.
  - done.
  - destruct (is_Exception e') eqn:He'; [done|]. by intros [= <- _].
Qed.

(** The [try] block of [_initialize_subscriptions] keeps the client
    connected, and keeps the cache when it raises an [Exception]. *)
Lemma _initialize_subscriptions_after (t : Transport) (w : World) :
  connected w →
  let w' := after (_initialize_subscriptions clock t settings) w in
  connected w' ∨ same_cache w w'.
Proof.
  intros Hw. pose (P := λ w', connected w' ∨ same_cache w w').
  change (P (after (_initialize_subscriptions clock t settings) w)).
  unfold _initialize_subscriptions.
  unfold after, mbind at 1, M_bind at 1, is_connected at 1, gets. simpl.
  rewrite Hw. simpl. unfold try_except at 1.
  match goal with |- context [match ?b w with _ => _ end] => set (body := b) end.
  assert (preserves connected body) as Hconn.
  { unfold body. preserves_client; connected_atom. }
  assert (∀ e w1, body w = (Raise e, w1) → is_Exception e = true → same_cache w w1) as Hexn.
  { unfold body. unfold mbind at 1, M_bind at 1, await at 1.
    destruct (client_create_subscription t) as [sub|e0]; [|by intros e w1 [= <- <-]].
    unfold mbind at 1, M_bind at 1, modify at 1.
    unfold mbind at 1, M_bind at 1.
    match goal with |- context [for_fold ?xs ?acc ?f ?w0] =>
      assert (same_cache w (after (for_fold xs acc f) w0)) as Hw2
        by (apply preserves_for_fold;
            [intros; preserves_client; same_cache_atom | done]);
      unfold after in Hw2;
      destruct (for_fold xs acc f w0) as [[nodes|e0] w2]
    end; simpl in Hw2.
    - destruct nodes as [|n nodes]; [done|].
      unfold mbind at 1, M_bind at 1, await at 1.
      destruct (subscribe_data_change t (n :: nodes)) as [[]|e0]; [|by intros e w1 [= <- <-]].
      intros e w1 Hpop He. apply _populate_initial_data_result in Hpop. congruence.
    - by intros e w1 [= <- <-]. }
  specialize (Hconn w Hw). unfold after in Hconn.
  destruct (body w) as [[[]|e] w1] eqn:Ebody; simpl in *; [by left|].
  destruct (is_Exception e) eqn:He; [|by left].
  right. apply (disconnect_same_cache t w w1). by eapply Hexn.
Qed.

(** [disconnect] and [_initialize_subscriptions] let no [Exception] out. *)
Lemma disconnect_raises (t : Transport) (w w' : World) (e : Exn) :
  disconnect t w = (Raise e, w') → is_Exception e = false.
Proof.
  intros H. pose proof (disconnect_result t w) as Hr. rewrite H in Hr. simpl in Hr.
  destruct (_is_connected (self w)); [|done].
  destruct (client_disconnect t) as [[]|e']; [done|].
  destruct (is_Exception e') eqn:He'; [done|]. congruence.
Qed.

Lemma _initialize_subscriptions_raises (t : Transport) (w w' : World) (e : Exn) :
  _initialize_subscriptions clock t settings w = (Raise e, w') → is_Exception e = false.
Proof.
  unfold _initialize_subscriptions.
  unfold mbind at 1, M_bind at 1, is_connected at 1, gets. simpl.
  destruct (_is_connected (self w)); simpl; [|done].
  unfold try_except at 1.
  match goal with |- context [match ?b w with _ => _ end] =>
    destruct (b w) as [[[]|e0] w1] end; [done|].
  destruct (is_Exception e0) eqn:He0.
  - apply disconnect_raises.
  - by intros [= <- _].
Qed.

Lemma _connection_manager_failed (t : Transport) (w : World) :
  _is_connected (self w) = false →
  let w' := after (_connection_manager clock t settings) w in
  _is_connected (self w') = false → same_cache w w'.
Proof.
  intros Hc. pose (P := λ w', _is_connected (self w') = false → same_cache w w').
  change (P (after (_connection_manager clock t settings) w)).
  unfold _connection_manager.
  unfold after, mbind at 1, M_bind at 1, gets at 1. simpl.
  destruct (_running (self w)); simpl; [|done].
  unfold mbind at 1, M_bind at 1, is_connected at 1, gets at 1. simpl.
  rewrite Hc. simpl. unfold try_except at 1. unfold mbind at 1, M_bind at 1.
  destruct (client_connect t) as [[]|e] eqn:Ec.
  - set (w1 := on_self (set_is_connected true) w).
    assert (connect t w = (Return tt, w1)) as ->
      by (unfold connect, await, mbind, M_bind, modify; by rewrite Ec).
    pose proof (_initialize_subscriptions_after t w1 eq_refl) as Hw1.
    simpl in Hw1. unfold after in Hw1.
    destruct (_initialize_subscriptions clock t settings w1) as [[[]|e] w2] eqn:Ei;
      simpl in Hw1.
    + unfold P. simpl. intros Hw2.
      destruct Hw1 as [Hw1|Hw1]; [unfold connected in Hw1; congruence | done].
    + apply _initialize_subscriptions_raises in Ei. rewrite Ei.
      unfold P. simpl. intros Hw2.
      destruct Hw1 as [Hw1|Hw1]; [unfold connected in Hw1; congruence | done].
  - assert (connect t w = (Raise e, w)) as ->
      by (unfold connect, await, mbind, M_bind, modify; by rewrite Ec).
    unfold P. destruct (is_Exception e); [|done].
    intros _. by apply (disconnect_same_cache t w w).
Qed.

End Attempt.

(** ** The claims *)

Section Claims.
Variable clock : nat → datetime.
Variable settings : Settings.t.

Lemma cache_lookup (w : World) (name : string) :
  cache w !! name = _data_store (self w) !! name ≫= deref w.
Proof. unfold cache. apply lookup_omap. Qed.

Lemma well_stored_deref (w : World) (name : string) (l : loc) :
  well_stored w → _data_store (self w) !! name = Some l →
  ∃ o, deref w l = Some o ∧ LiveTag.name o = name.
Proof.
  intros Hw Hl. apply Hw in Hl. rewrite list_lookup_fmap in Hl.
  apply fmap_Some in Hl as (o & Ho & ->). by exists o.
Qed.

Lemma cache_dom (w : World) :
  well_stored w → dom (cache w) = dom (_data_store (self w)).
Proof.
  intros Hw. apply set_eq. intros name. rewrite !elem_of_dom, cache_lookup.
  destruct (_data_store (self w) !! name) as [l|] eqn:Hl; simpl.
  - destruct (well_stored_deref w name l Hw Hl) as (o & -> & _). split; eauto.
  - split; by intros [? ?].
Qed.

Lemma run_dom (ops : list Op) :
  dom (_data_store (self (run clock settings ops (__init__ clock settings)))) =
  list_to_set (configured_names settings).
Proof. rewrite run_store. apply __init___dom. Qed.

Lemma run_cache_dom (ops : list Op) :
  dom (cache (run clock settings ops (__init__ clock settings))) =
  list_to_set (configured_names settings).
Proof. rewrite cache_dom; [apply run_dom | apply run_well_stored]. Qed.

(** C1.  At every point of the life of the process, the names of the tag
    cache are the configured names: the store built by [__init__] has
    exactly these keys, every sequence of later calls leaves them as they
    are, and [get_all_tags] returns one object per configured name, each
    carrying its name. *)
Theorem tag_cache_keys_fixed (ops : list Op) :
  let w := run clock settings ops (__init__ clock settings) in
  dom (_data_store (self w)) = list_to_set (configured_names settings) ∧
  dom (cache w) = list_to_set (configured_names settings) ∧
  ∃ ls, get_all_tags w = (Return ls, w) ∧
        length (tag_names w ls) = length ls ∧
        NoDup (tag_names w ls) ∧
        (∀ name, name ∈ tag_names w ls ↔ name ∈ configured_names settings) ∧
        (NoDup (configured_names settings) →
         length ls = length (configured_names settings)).
Proof.
  intros w.
  pose proof (run_dom ops) as Hdom. fold w in Hdom.
  pose proof (run_well_stored clock settings ops) as Hw. fold w in Hw.
  split; [done|]. split; [apply run_cache_dom|].
  exists (map_to_list (_data_store (self w))).*2. split; [done|].
  rewrite tag_names_values by done.
  assert (∀ name, name ∈ (map_to_list (_data_store (self w))).*1
                  ↔ name ∈ configured_names settings) as Hiff.
  { intros name.
    rewrite <- (elem_of_list_to_set (C := gset string) name (configured_names settings)).
    rewrite <- Hdom.
    rewrite elem_of_dom, list_elem_of_fmap. split.
    - intros ([k l] & -> & Hkl). apply elem_of_map_to_list in Hkl. eauto.
    - intros [l Hl]. exists (name, l). split; [done|]. by apply elem_of_map_to_list. }
  split; [by rewrite !length_fmap|].
  split; [apply NoDup_fst_map_to_list|]. split; [done|].
  intros Hnd. rewrite length_fmap, <- (length_fmap fst).
  apply Permutation_length, NoDup_Permutation; [apply NoDup_fst_map_to_list|done..].
Qed.

(** C2.  A data change notification for a node that the node map does not
    hold returns normally and leaves the whole world, hence every entry of
    the tag cache, as it was. *)
Theorem unmapped_notification_discarded
    (w : World) (node : Node) (data_value : DataValue.t) :
  _node_map (self w) !! node = None →
  update_tag_value_from_node clock node data_value w = (Return tt, w) ∧
  cache (step clock settings (DataChange node data_value) w) = cache w.
Proof.
  intros Hnode. simpl. unfold after.
  by rewrite update_tag_value_from_node_unmapped.
Qed.


Lemma same_cache_cache (w0 w : World) : same_cache w0 w → cache w = cache w0.
Proof. intros [Hd Hh]. unfold cache, deref. by rewrite Hd, Hh. Qed.

Lemma cache_elem_of (w : World) (name : string) (o : LiveTag.t) :
  cache w !! name = Some o → o ∈ heap w.
Proof.
  rewrite cache_lookup. destruct (_data_store (self w) !! name) as [l|]; [|done].
  simpl. unfold deref. apply list_elem_of_lookup_2.
Qed.

(** C3, as the code has it.  When a turn of the connection manager that
    started disconnected ends disconnected (the connection or the
    subscription failed and the teardown ran), the store and every object
    of the cache are exactly what they were before the attempt: nothing is
    set back, and the last value, status and timestamp stay readable. *)
Theorem failed_attempt_keeps_cache (t : Transport) (w : World) :
  _is_connected (self w) = false →
  let w' := after (_connection_manager clock t settings) w in
  _is_connected (self w') = false →
  _data_store (self w') = _data_store (self w) ∧
  heap w' = heap w ∧
  cache w' = cache w.
Proof.
  intros Hc w' Hc'.
  pose proof (_connection_manager_failed clock settings t w Hc Hc') as Hsame.
  fold w' in Hsame. destruct (Hsame) as [Hd Hh]. by rewrite (same_cache_cache w w').
Qed.

Lemma run_cold_initial (ops : list Op) (name : string) (o : LiveTag.t) :
  Forall (λ op, never_connects op = true) ops →
  cache (run clock settings ops (__init__ clock settings)) !! name = Some o →
  LiveTag.value o = PyNone ∧ LiveTag.status o = "Uncertain".
Proof.
  intros Hops Ho. destruct (run_cold clock settings ops Hops) as (_ & _ & Hsame).
  rewrite (same_cache_cache _ _ Hsame) in Ho. apply cache_elem_of in Ho.
  pose proof (__init___initial clock settings) as Hinit.
  rewrite Forall_forall in Hinit. by destruct (Hinit o Ho) as (?&?&_).
Qed.

(** C4, as the code has it.  As long as no connection has succeeded, every
    configured tag has an entry in the cache, and every entry has the value
    [None] and the status "Uncertain". *)
Theorem cold_cache_is_uncertain (ops : list Op) :
  Forall (λ op, never_connects op = true) ops →
  let w := run clock settings ops (__init__ clock settings) in
  dom (cache w) = list_to_set (configured_names settings) ∧
  ∀ name o, cache w !! name = Some o →
            LiveTag.value o = PyNone ∧ LiveTag.status o = "Uncertain".
Proof.
  intros Hops w. split; [apply run_cache_dom|].
  intros name o Ho. by apply (run_cold_initial ops name).
Qed.

(** C6, as the code has it.  [is_connected] reports the connected flag.
    The flag is raised as soon as [connect] succeeds, whatever the state of
    the subscription, and it is down after every [disconnect]; in every
    state of the process where it is down there is no subscription and no
    node is mapped. *)
Theorem is_connected_tracks_transport (ops : list Op) (t : Transport) :
  let w := run clock settings ops (__init__ clock settings) in
  is_connected w = (Return (_is_connected (self w)), w) ∧
  (_is_connected (self w) = false →
   subscription (self w) = None ∧ _node_map (self w) = ∅) ∧
  (client_connect t = Return tt →
   _is_connected (self (after (connect t) w)) = true ∧
   subscription (self (after (connect t) w)) = subscription (self w)) ∧
  _is_connected (self (after (disconnect t) w)) = false.
Proof.
  intros w. split; [done|]. split; [apply run_settled|]. split.
  - intros Ht. unfold after, connect, await, mbind, M_bind. by rewrite Ht.
  - rewrite disconnect_after. by destruct (_is_connected (self w)) eqn:Hc.
Qed.

Lemma stop_running (t : Transport) (w : World) :
  _running (self (after (stop t) w)) = false.
Proof.
  unfold after, stop. unfold mbind at 1, M_bind at 1, gets at 1. simpl.
  destruct (_running (self w)) eqn:Hr; simpl; [|done].
  unfold mbind at 1, M_bind at 1, modify at 1.
  match goal with |- _running (self (?m ?w0).2) = false =>
    change ((λ w', _running (self w') = false) (after m w0));
    assert (preserves (λ w', _running (self w') = false) m) as Hm
  end.
  { repeat first [ preserves_step | unfold_client ].
    all: by apply preserves_modify. }
  by apply Hm.
Qed.

(** C8.  [stop] on a client that is not running returns at once and changes
    nothing; and since [stop] always leaves the client not running, a second
    [stop] changes nothing either. *)
Theorem stop_not_running_noop (t t' : Transport) (w : World) :
  _running (self w) = false →
  stop t w = (Return tt, w) ∧
  stop t' (after (stop t) w) = (Return tt, after (stop t) w).
Proof.
  assert (∀ t w, _running (self w) = false → stop t w = (Return tt, w)) as Hnoop.
  { intros t0 w0 Hr. unfold stop, gets, mbind, M_bind. by rewrite Hr. }
  intros Hr. split; [by apply Hnoop|]. apply Hnoop, stop_running.
Qed.

(** [stop] is idempotent from every state. *)
Lemma stop_idempotent (t t' : Transport) (w : World) :
  after (stop t') (after (stop t) w) = after (stop t) w.
Proof.
  unfold after at 1.
  assert (stop t' (after (stop t) w) = (Return tt, after (stop t) w)) as ->; [|done].
  unfold stop at 1, gets, mbind, M_bind. by rewrite stop_running.
Qed.

Lemma update_tag_value_from_node_applied
    (w : World) (node : Node) (data_value : DataValue.t)
    (name : string) (l : loc) (v : Variant.t) (sc : StatusCode.t) :
  _node_map (self w) !! node = Some name →
  str_bool name = true →
  _data_store (self w) !! name = Some l →
  DataValue.Value data_value = Some v →
  DataValue.StatusCode data_value = Some sc →
  let w' := after (update_tag_value_from_node clock node data_value) w in
  deref w' l =
  (λ o, LiveTag.mk (LiveTag.name o) (LiveTag.node_id o) (Variant.Value v) (StatusCode.name sc)
          (Some (default (clock (clock_reads w)) (DataValue.SourceTimestamp data_value))))
  <$> deref w l.
Proof.
  intros Hnode Htruth Hl Hv Hsc.
  unfold after, update_tag_value_from_node, gets, mbind, M_bind. simpl.
  rewrite Hnode, Htruth. simpl. rewrite Hl, Hv. simpl. rewrite Hsc. simpl.
  destruct (DataValue.SourceTimestamp data_value) as [ts|]; simpl;
    unfold deref; simpl; rewrite !list_lookup_alter_eq.
  all: destruct (heap w !! l); reflexivity.
Qed.

(** C9.  The timestamp of a cache entry is never [None].  [__init__]
    stores the current time: the entry of a name is the object built for a
    configured tag of this name, stamped with the reading of the clock
    taken at the turn of this tag.  An update that is applied stores the
    source timestamp of the notification or, when there is none, the
    reading of the clock at this moment.  And in every state of the
    process every entry has a timestamp. *)
Theorem timestamps_never_null (ops : list Op) :
  let w := run clock settings ops (__init__ clock settings) in
  (∀ name o, cache w !! name = Some o → is_Some (LiveTag.timestamp o)) ∧
  (∀ name o, cache (__init__ clock settings) !! name = Some o →
     ∃ i tag, tags_to_process settings !! i = Some tag ∧
              Tag.name tag = name ∧
              o = LiveTag.mk name (Tag.node_id tag) PyNone "Uncertain" (Some (clock i))) ∧
  (∀ node data_value name l o v sc,
     _node_map (self w) !! node = Some name →
     str_bool name = true →
     _data_store (self w) !! name = Some l →
     deref w l = Some o →
     DataValue.Value data_value = Some v →
     DataValue.StatusCode data_value = Some sc →
     LiveTag.timestamp <$>
       deref (after (update_tag_value_from_node clock node data_value) w) l =
     Some (Some (default (clock (clock_reads w))
                         (DataValue.SourceTimestamp data_value)))).
Proof.
  intros w. split; [|split].
  - intros name o Ho. apply cache_elem_of in Ho.
    destruct (run_kept clock settings _ _ ops _ (__init___kept clock settings))
      as (_ & _ & Hts).
    fold w in Hts. rewrite Forall_forall in Hts. by apply Hts.
  - intros name o. rewrite cache_lookup.
    destruct (_data_store (self (__init__ clock settings)) !! name) as [l|] eqn:Hl;
      [|done].
    simpl. unfold deref. intros Ho.
    pose proof (__init___well_stored clock settings name l Hl) as Hname.
    rewrite list_lookup_fmap, Ho in Hname. simpl in Hname.
    rewrite __init___heap, list_lookup_imap in Ho.
    destruct (tags_to_process settings !! l) as [tag|] eqn:Htag; [|done].
    simpl in Ho. injection Ho as <-. simpl in Hname. injection Hname as Hname.
    exists l, tag. by rewrite Hname.
  - intros node dv name l o v sc Hnode Htruth Hl Ho Hv Hsc.
    rewrite (update_tag_value_from_node_applied w node dv name l v sc) by done.
    by rewrite Ho.
Qed.

(** C10.  [disconnect] on a connected client always finishes its teardown:
    whatever the transport answers, the connected flag is down, the
    subscription is dropped and the node map is empty afterwards, nothing
    else is touched, and an [Exception] of the transport is not passed on.
    On a client that is not connected it changes nothing. *)
Theorem disconnect_completes_teardown (t : Transport) (w : World) :
  (_is_connected (self w) = true →
   let w' := after (disconnect t) w in
   _is_connected (self w') = false ∧
   subscription (self w') = None ∧
   _node_map (self w') = ∅ ∧
   _running (self w') = _running (self w) ∧
   _connection_task (self w') = _connection_task (self w) ∧
   _data_store (self w') = _data_store (self w) ∧
   heap w' = heap w ∧
   (survivable (client_disconnect t) = true → (disconnect t w).1 = Return tt)) ∧
  (_is_connected (self w) = false → disconnect t w = (Return tt, w)).
Proof.
  split.
  - intros Hc. simpl. rewrite disconnect_after, disconnect_result, Hc. simpl.
    repeat split. destruct (client_disconnect t) as [[]|e]; simpl; [done|].
    by intros ->.
  - intros Hc. unfold disconnect, is_connected, gets, mbind, M_bind. by rewrite Hc.
Qed.

End Claims.

(** ** The claims on the plant with two tags *)

(** C2 at work: after the session is closed the node map is empty, and a
    late notification for node 1 is dropped. *)
Lemma unmapped_notification_discarded_witness :
  _node_map (self Plant.dropped) !! 1 = None ∧
  update_tag_value_from_node Plant.clock 1 (Plant.good 11 None) Plant.dropped
    = (Return tt, Plant.dropped) ∧
  cache (step Plant.clock Plant.settings (DataChange 1 (Plant.good 11 None)) Plant.dropped)
    = cache Plant.dropped.
Proof.
  split; [vm_compute; reflexivity|].
  apply (unmapped_notification_discarded Plant.clock Plant.settings).
  vm_compute; reflexivity.
Defined.

(** Where the dictionary does hold the node, the same call can raise. *)
Lemma update_tag_value_from_node_can_raise :
  (update_tag_value_from_node Plant.clock 1 (DataValue.mk None None None) Plant.live).1
  = Raise AttributeError.
Proof. vm_compute; reflexivity. Qed.

(** C3 as stated fails: the subscription is refused and the teardown runs,
    and tag A still shows the value 10 with status "Good". *)
Lemma teardown_keeps_stale_values :
  let w := run Plant.clock Plant.settings
             [ConnectionManager Plant.subscription_refused] Plant.dropped in
  torn_down w ∧
  cache w !! "A" = Some (LiveTag.mk "A" "ns=2;i=1" (PyInt 10) "Good" (Some 5%Z)) ∧
  LiveTag.status <$> cache w !! "A" ≠ Some "NoData".
Proof.
  vm_compute. repeat split; try reflexivity. intros [=].
Qed.

Lemma failed_attempt_keeps_cache_witness :
  _is_connected (self Plant.dropped) = false ∧
  _is_connected
    (self (after (_connection_manager Plant.clock Plant.subscription_refused Plant.settings)
                 Plant.dropped)) = false ∧
  cache (after (_connection_manager Plant.clock Plant.subscription_refused Plant.settings)
               Plant.dropped) = cache Plant.dropped.
Proof.
  split; [vm_compute; reflexivity|]. split; [vm_compute; reflexivity|].
  apply (failed_attempt_keeps_cache Plant.clock Plant.settings
           Plant.subscription_refused Plant.dropped); vm_compute; reflexivity.
Defined.

(** C4 as stated fails: the status after [__init__] is "Uncertain". *)
Lemma initial_status_is_not_NoData :
  cache Plant.started !! "A"
    = Some (LiveTag.mk "A" "ns=2;i=1" PyNone "Uncertain" (Some 1000%Z)) ∧
  LiveTag.status <$> cache Plant.started !! "A" ≠ Some "NoData".
Proof.
  vm_compute. split; [reflexivity|]. intros [=].
Qed.

Lemma cold_cache_is_uncertain_witness :
  let ops := [Start; ConnectionManager Plant.server_down; GetAllTags] in
  let w := run Plant.clock Plant.settings ops Plant.started in
  Forall (λ op, never_connects op = true) ops ∧
  cache w !! "A" = Some (LiveTag.mk "A" "ns=2;i=1" PyNone "Uncertain" (Some 1000%Z)) ∧
  dom (cache w) = list_to_set (configured_names Plant.settings) ∧
  LiveTag.value (LiveTag.mk "A" "ns=2;i=1" PyNone "Uncertain" (Some 1000%Z)) = PyNone ∧
  LiveTag.status (LiveTag.mk "A" "ns=2;i=1" PyNone "Uncertain" (Some 1000%Z)) = "Uncertain".
Proof.
  intros ops w.
  assert (Forall (λ op, never_connects op = true) ops) as Hops by (by repeat constructor).
  assert (cache w !! "A" = Some (LiveTag.mk "A" "ns=2;i=1" PyNone "Uncertain" (Some 1000%Z)))
    as HA by (vm_compute; reflexivity).
  split; [exact Hops|]. split; [exact HA|].
  destruct (cold_cache_is_uncertain Plant.clock Plant.settings ops Hops) as [Hdom Hall].
  split; [exact Hdom|]. exact (Hall "A" _ HA).
Defined.

Lemma timestamps_never_null_witness :
  cache Plant.live !! "B"
    = Some (LiveTag.mk "B" "ns=2;i=2" (PyInt 20) "Good" (Some 1002%Z)) ∧
  is_Some (LiveTag.timestamp (LiveTag.mk "B" "ns=2;i=2" (PyInt 20) "Good" (Some 1002%Z))) ∧
  cache Plant.started !! "B"
    = Some (LiveTag.mk "B" "ns=2;i=2" PyNone "Uncertain" (Some (Plant.clock 1))) ∧
  ∃ i tag, tags_to_process Plant.settings !! i = Some tag ∧
           Tag.name tag = "B" ∧
           LiveTag.mk "B" "ns=2;i=2" PyNone "Uncertain" (Some (Plant.clock 1))
           = LiveTag.mk "B" (Tag.node_id tag) PyNone "Uncertain" (Some (Plant.clock i)).
Proof.
  assert (cache Plant.live !! "B"
          = Some (LiveTag.mk "B" "ns=2;i=2" (PyInt 20) "Good" (Some 1002%Z)))
    as HB by (vm_compute; reflexivity).
  assert (cache Plant.started !! "B"
          = Some (LiveTag.mk "B" "ns=2;i=2" PyNone "Uncertain" (Some (Plant.clock 1))))
    as HB0 by (vm_compute; reflexivity).
  split; [exact HB|].
  destruct (timestamps_never_null Plant.clock Plant.settings
              [Start; ConnectionManager Plant.server_up]) as (Hall & Hinit & _).
  split; [exact (Hall "B" _ HB)|]. split; [exact HB0|].
  exact (Hinit "B" _ HB0).
Defined.

(** C5 as stated fails: a configured tag without data is found, and its
    status is "Uncertain". *)
Lemma silent_tag_is_not_NoData :
  ∃ l o,
    get_tag_by_name "A" Plant.started = (Return (Some l), Plant.started) ∧
    deref Plant.started l = Some o ∧
    LiveTag.status o = "Uncertain" ∧
    LiveTag.status o ≠ "NoData".
Proof.
  exists 0, (LiveTag.mk "A" "ns=2;i=1" PyNone "Uncertain" (Some 1000%Z)).
  vm_compute. repeat split; try reflexivity. intros [=].
Qed.

(** C6 as stated fails: once [connect] has succeeded the client reports
    that it is connected, and there is no subscription yet. *)
Lemma connected_before_subscription :
  let w := run Plant.clock Plant.settings [Start; Connect Plant.server_up] Plant.started in
  is_connected w = (Return true, w) ∧ subscription (self w) = None.
Proof. vm_compute. split; reflexivity. Qed.

(** C7 fails on the code: the references that [get_all_tags] and
    [get_tag_by_name] return are the stored objects.  A caller that holds
    them while the cache is live sees tag A go from 10/"Good"/5 to
    11/"Bad"/9 when the next notification is applied. *)
Theorem get_all_tags_returns_live_objects :
  let w := Plant.live in
  let data_value :=
    DataValue.mk (Some (Variant.mk (PyInt 11))) (Some (StatusCode.mk "Bad")) (Some 9%Z) in
  let w' := step Plant.clock Plant.settings (DataChange 1 data_value) w in
  ∃ ls l,
    get_all_tags w = (Return ls, w) ∧
    get_tag_by_name "A" w = (Return (Some l), w) ∧
    l ∈ ls ∧
    deref w l = Some (LiveTag.mk "A" "ns=2;i=1" (PyInt 10) "Good" (Some 5%Z)) ∧
    deref w' l = Some (LiveTag.mk "A" "ns=2;i=1" (PyInt 11) "Bad" (Some 9%Z)).
Proof.
  exists [0; 1], 0. repeat split; try (vm_compute; reflexivity). by left.
Qed.

Lemma stop_not_running_noop_witness :
  _running (self Plant.started) = false ∧
  stop Plant.server_up Plant.started = (Return tt, Plant.started) ∧
  stop Plant.server_down (after (stop Plant.server_up) Plant.started)
    = (Return tt, after (stop Plant.server_up) Plant.started).
Proof.
  split; [vm_compute; reflexivity|].
  apply (stop_not_running_noop Plant.server_up Plant.server_down Plant.started).
  vm_compute; reflexivity.
Defined.

Lemma disconnect_completes_teardown_witness :
  _is_connected (self Plant.live) = true ∧
  client_disconnect Plant.subscription_refused = Raise OSError ∧
  torn_down (after (disconnect Plant.subscription_refused) Plant.live) ∧
  (disconnect Plant.subscription_refused Plant.live).1 = Return tt.
Proof.
  split; [vm_compute; reflexivity|]. split; [reflexivity|].
  destruct (disconnect_completes_teardown Plant.subscription_refused Plant.live)
    as [Hconnected _].
  destruct Hconnected as (H1 & H2 & H3 & _ & _ & _ & _ & H4); [vm_compute; reflexivity|].
  split; [by repeat split|]. by apply H4.
Defined.

(** ** Further properties of the client *)

Section More.
Variable clock : nat → datetime.
Variable settings : Settings.t.

(** X1.  [start] never raises and leaves the client running.  On a running
    client it changes nothing, so a second [start] is without effect; on a
    stopped client it records the manager task.  It never touches the
    connection or the cache. *)
Theorem start_idempotent (w : World) :
  let w' := after start w in
  (start w).1 = Return tt ∧
  _running (self w') = true ∧
  (_running (self w) = true → w' = w) ∧
  (_running (self w) = false →
   _connection_task (self w') = Some ConnectionManagerTask) ∧
  after start w' = w' ∧
  _is_connected (self w') = _is_connected (self w) ∧
  subscription (self w') = subscription (self w) ∧
  _node_map (self w') = _node_map (self w) ∧
  _data_store (self w') = _data_store (self w) ∧
  heap w' = heap w.
Proof.
  unfold after, start, gets, modify, mbind, M_bind. simpl.
  destruct (_running (self w)) eqn:Hr; simpl; rewrite ?Hr; by repeat split.
Qed.

(** X2.  A one-off read never changes the client or the cache.  On a
    client that is not connected it raises [ConnectionError] without
    asking the transport; on a connected client it gives exactly what the
    transport gives: the value read, or the exception of the transport,
    raised again as it is. *)
Theorem read_value_bypasses_cache (t : Transport) (node_id : string) (w : World) :
  read_value t node_id w =
    (if _is_connected (self w) then transport_read t node_id
     else Raise ConnectionError, w).
Proof.
  unfold read_value, transport_read.
  unfold is_connected, gets, try_except, call, await, raise, mbind, M_bind.
  destruct (_is_connected (self w)); simpl; [|done].
  destruct (client_get_node t node_id) as [node|e]; simpl.
  - destruct (node_read_value t node) as [v|e]; [done|]. by destruct (is_Exception e).
  - by destruct (is_Exception e).
Qed.

(** X3.  A one-off write never changes the client or the cache.  On a
    client that is not connected it raises [ConnectionError] without
    asking the transport.  On a connected client it resolves the node,
    wraps the value, and writes: it returns when the transport accepts the
    write, and an exception of any of the three steps is raised again as
    it is; a value that the library refuses to wrap is never sent. *)
Theorem write_value_bypasses_cache
    (t : Transport) (ua_Variant : PyValue → VariantType → Result Variant.t)
    (node_id : string) (value : PyValue) (variant_type : VariantType) (w : World) :
  write_value t ua_Variant node_id value variant_type w =
    (if _is_connected (self w)
     then transport_write t ua_Variant node_id value variant_type
     else Raise ConnectionError, w) ∧
  (∀ node e, _is_connected (self w) = true →
     client_get_node t node_id = Return node →
     ua_Variant value variant_type = Raise e →
     write_value t ua_Variant node_id value variant_type w = (Raise e, w)).
Proof.
  assert (write_value t ua_Variant node_id value variant_type w =
          (if _is_connected (self w)
           then transport_write t ua_Variant node_id value variant_type
           else Raise ConnectionError, w)) as Heq.
  { unfold write_value, transport_write.
    unfold is_connected, gets, try_except, call, await, raise, mbind, M_bind.
    destruct (_is_connected (self w)); simpl; [|done].
    destruct (client_get_node t node_id) as [node|e]; simpl;
      [|by destruct (is_Exception e)].
    destruct (ua_Variant value variant_type) as [variant|e]; simpl;
      [|by destruct (is_Exception e)].
    destruct (node_write_value t node variant) as [[]|e]; [done|].
    by destruct (is_Exception e). }
  split; [exact Heq|].
  intros node e Hc Hnode Hvariant. rewrite Heq, Hc. unfold transport_write.
  by rewrite Hnode, Hvariant.
Qed.

(** X4.  A notification that arrives while the client is not connected is
    dropped, whatever node it names: the call returns normally and the
    world is unchanged. *)
Theorem late_notification_dropped
    (ops : list Op) (node : Node) (data_value : DataValue.t) :
  let w := run clock settings ops (__init__ clock settings) in
  _is_connected (self w) = false →
  update_tag_value_from_node clock node data_value w = (Return tt, w).
Proof.
  intros w Hc. apply update_tag_value_from_node_unmapped.
  destruct (run_settled clock settings ops Hc) as [_ Hmap]. fold w in Hmap.
  rewrite Hmap. apply lookup_empty.
Qed.

(** X5.  While the client is not connected, no call changes the cache or
    raises the connected flag, unless the transport accepts a connection
    during this call. *)
Theorem cache_frozen_while_disconnected (ops : list Op) (op : Op) :
  let w := run clock settings ops (__init__ clock settings) in
  _is_connected (self w) = false →
  never_connects op = true →
  let w' := step clock settings op w in
  cache w' = cache w ∧
  _is_connected (self w') = false ∧
  _node_map (self w') = ∅.
Proof.
  intros w Hc Hop w'.
  destruct (run_settled clock settings ops Hc) as [_ Hmap]. fold w in Hmap.
  assert (cold w w) as Hcold by done.
  destruct (step_cold clock settings w op w Hop Hcold) as (? & ? & Hsame).
  split; [by apply same_cache_cache|done].
Qed.

End More.

(** ** The node map gives out configured names *)

Lemma preserves_for_fold_elem {A B} (P : World → Prop)
    (xs : list A) (acc : B) (body : B → A → M B) :
  (∀ acc x, x ∈ xs → preserves P (body acc x)) → preserves P (for_fold xs acc body).
Proof.
  revert acc. induction xs as [|x xs IH]; intros acc Hb; simpl.
  - apply preserves_ret.
  - apply preserves_bind; [apply Hb; by left|].
    intros acc'. apply IH. intros acc'' y Hy. apply Hb. by right.
Qed.

Ltac mapped_atom :=
  first
    [ apply preserves_modify; intros ? ?; done
    | apply preserves_utcnow; intros ? ? ?; done
    | apply preserves_setattr; intros ? ?; done ].

Section Mapped.
Variable clock : nat → datetime.
Variable settings : Settings.t.

Lemma teardown_mapped_configured (w : World) :
  mapped_configured settings (teardown w).
Proof. intros node name. simpl. by rewrite lookup_empty. Qed.

Lemma disconnect_mapped_configured (t : Transport) :
  preserves (mapped_configured settings) (disconnect t).
Proof.
  intros w Hw. rewrite disconnect_after.
  destruct (_is_connected (self w)); [apply teardown_mapped_configured | done].
Qed.

Lemma _initialize_subscriptions_mapped_configured (t : Transport) :
  preserves (mapped_configured settings) (_initialize_subscriptions clock t settings).
Proof.
  unfold _initialize_subscriptions.
  repeat first
    [ apply disconnect_mapped_configured
    | apply preserves_for_fold_elem; intros ? tag Htag
    | preserves_step | unfold_client ].
  all: try mapped_atom.
  apply preserves_modify. intros w Hw node name. simpl.
  match goal with |- context [<[?n := _]> _] =>
    destruct (decide (n = node)) as [->|Hne] end.
  - rewrite lookup_insert_eq. intros [= <-].
    unfold configured_names. by apply list_elem_of_fmap_2.
  - rewrite lookup_insert_ne by done. apply Hw.
Qed.

Lemma step_mapped_configured (op : Op) (w : World) :
  mapped_configured settings w → mapped_configured settings (step clock settings op w).
Proof.
  revert w. destruct op; simpl;
    match goal with |- ∀ w, ?P w → ?P (after ?m w) => change (preserves P m) end.
  - preserves_client; mapped_atom.
  - unfold stop.
    repeat first [ apply disconnect_mapped_configured | mapped_atom | preserves_step ].
  - preserves_client; mapped_atom.
  - apply disconnect_mapped_configured.
  - apply _initialize_subscriptions_mapped_configured.
  - unfold _connection_manager, connect.
    repeat first
      [ apply disconnect_mapped_configured
      | apply _initialize_subscriptions_mapped_configured
      | mapped_atom | preserves_step ].
  - preserves_client; mapped_atom.
  - preserves_client; mapped_atom.
  - preserves_client; mapped_atom.
  - preserves_client; mapped_atom.
  - preserves_client; mapped_atom.
Qed.

Lemma run_mapped_configured (ops : list Op) :
  mapped_configured settings (run clock settings ops (__init__ clock settings)).
Proof.
  assert (∀ w, mapped_configured settings w →
               mapped_configured settings (run clock settings ops w)) as H.
  { induction ops as [|op ops IH]; intros w Hw; simpl; [done|].
    apply IH. by apply step_mapped_configured. }
  apply H. intros node name.
  destruct (__init___torn_down clock settings) as (_ & _ & ->). by rewrite lookup_empty.
Qed.

(** X6.  In every state of the process, a node of the node map is mapped to
    a configured name, and this name has an object in the store: the
    branch of [update_tag_value_from_node] for a tag that is not in the
    data store is never taken. *)
Theorem mapped_node_has_tag (ops : list Op) (node : Node) (name : string) :
  let w := run clock settings ops (__init__ clock settings) in
  _node_map (self w) !! node = Some name →
  name ∈ configured_names settings ∧
  ∃ l o, _data_store (self w) !! name = Some l ∧
         deref w l = Some o ∧
         LiveTag.name o = name.
Proof.
  intros w Hnode.
  pose proof (run_mapped_configured ops node name Hnode) as Hname.
  split; [done|].
  assert (is_Some (_data_store (self w) !! name)) as [l Hl].
  { apply elem_of_dom. unfold w. rewrite run_dom. by apply elem_of_list_to_set. }
  destruct (well_stored_deref w name l) as (o & Ho & Hn);
    [apply run_well_stored | done |]. by exists l, o.
Qed.

End Mapped.

(** ** What an update and the bulk read touch *)

Ltac self_atom :=
  first
    [ apply preserves_utcnow; intros ? ? ?; done
    | apply preserves_setattr; intros ? ?; done ].

Section Frame.
Variable clock : nat → datetime.
Variable settings : Settings.t.

Lemma update_tag_value_from_node_self (node : Node) (data_value : DataValue.t) (c : OpcuaClient) :
  preserves (λ w, self w = c) (update_tag_value_from_node clock node data_value).
Proof. preserves_client; self_atom. Qed.

Lemma _populate_initial_data_self (t : Transport) (nodes : list Node) (c : OpcuaClient) :
  preserves (λ w, self w = c) (_populate_initial_data clock t nodes).
Proof. preserves_client; self_atom. Qed.

(** An object that is not the one of the notified tag keeps its state. *)
Lemma update_tag_value_from_node_other
    (node : Node) (data_value : DataValue.t) (w : World) (l' : loc) :
  (∀ name, _node_map (self w) !! node = Some name →
           _data_store (self w) !! name ≠ Some l') →
  heap (after (update_tag_value_from_node clock node data_value) w) !! l' = heap w !! l'.
Proof.
  intros Hl'. unfold after, update_tag_value_from_node, gets, mbind, M_bind. simpl.
  destruct (_node_map (self w) !! node) as [name|] eqn:Hnode; [|done].
  destruct (str_bool name); simpl; [|done].
  destruct (_data_store (self w) !! name) as [l|] eqn:Hl; [|done].
  assert (l ≠ l') as Hne by (intros ->; by apply (Hl' name)).
  unfold getattr, setattr, modify, raise, utcnow.
  destruct (DataValue.Value data_value) as [v|]; simpl; [|done].
  destruct (DataValue.StatusCode data_value) as [sc|]; simpl;
    [|by rewrite list_lookup_alter_ne].
  destruct (DataValue.SourceTimestamp data_value) as [ts|]; simpl;
    by rewrite !list_lookup_alter_ne.
Qed.

(** X7.  A notification for a node mapped to a tag changes no attribute of
    the client and no other entry of the cache, and the entry of the tag
    keeps its name and its node id, whether the update is applied in full
    or stops at a missing attribute. *)
Theorem notification_touches_one_tag
    (ops : list Op) (node : Node) (data_value : DataValue.t) (name : string) :
  let w := run clock settings ops (__init__ clock settings) in
  _node_map (self w) !! node = Some name →
  let w' := after (update_tag_value_from_node clock node data_value) w in
  self w' = self w ∧
  (∀ other, other ≠ name → cache w' !! other = cache w !! other) ∧
  LiveTag.name <$> cache w' !! name = LiveTag.name <$> cache w !! name ∧
  LiveTag.node_id <$> cache w' !! name = LiveTag.node_id <$> cache w !! name.
Proof.
  intros w Hnode w'.
  pose proof (run_well_stored clock settings ops) as Hw. fold w in Hw.
  assert (self w' = self w) as Hself
    by (by apply (update_tag_value_from_node_self node data_value (self w))).
  split; [done|]. split.
  - intros other Hother. rewrite !cache_lookup, Hself.
    destruct (_data_store (self w) !! other) as [l'|] eqn:Hl'; [|done]. simpl.
    apply update_tag_value_from_node_other. intros name' Hname' Hl.
    rewrite Hnode in Hname'. injection Hname' as <-.
    apply Hw in Hl', Hl. congruence.
  - rewrite !cache_lookup, Hself.
    destruct (_data_store (self w) !! name) as [l|] eqn:Hl; [|done]. simpl.
    unfold w', after, deref, update_tag_value_from_node, gets, mbind, M_bind. simpl.
    rewrite Hnode. destruct (str_bool name); simpl; [|done]. rewrite Hl.
    unfold getattr, setattr, modify, raise, utcnow.
    destruct (DataValue.Value data_value) as [v|]; simpl; [|done].
    destruct (DataValue.StatusCode data_value) as [sc|]; simpl.
    + destruct (DataValue.SourceTimestamp data_value) as [ts|]; simpl;
        rewrite !list_lookup_alter_eq; by destruct (heap w !! l).
    + rewrite !list_lookup_alter_eq; by destruct (heap w !! l).
Qed.

Lemma for_fold_raises {A B} (Q : Exn → Prop)
    (xs : list A) (acc : B) (body : B → A → M B) (w w' : World) (e : Exn) :
  (∀ acc x w e w', body acc x w = (Raise e, w') → Q e) →
  for_fold xs acc body w = (Raise e, w') → Q e.
Proof.
  intros Hb. revert acc w. induction xs as [|x xs IH]; intros acc w; simpl; [done|].
  unfold mbind, M_bind. destruct (body acc x w) as [[acc'|e'] w1] eqn:Hx.
  - apply IH.
  - intros [= <- <-]. by eapply Hb.
Qed.

(** The only exception of an update is the [AttributeError] of a missing
    attribute. *)
Lemma update_tag_value_from_node_raises
    (node : Node) (data_value : DataValue.t) (w w' : World) (e : Exn) :
  update_tag_value_from_node clock node data_value w = (Raise e, w') →
  e = AttributeError.
Proof.
  unfold update_tag_value_from_node, gets, mbind, M_bind. simpl.
  destruct (_node_map (self w) !! node) as [name|]; [|done].
  destruct (str_bool name); simpl; [|done].
  destruct (_data_store (self w) !! name) as [l|]; [|done].
  unfold getattr, setattr, modify, raise, utcnow.
  destruct (DataValue.Value data_value) as [v|]; simpl; [|by intros [= <- _]].
  destruct (DataValue.StatusCode data_value) as [sc|]; simpl; [|by intros [= <- _]].
  by destruct (DataValue.SourceTimestamp data_value).
Qed.

(** X8.  The bulk read never lets an [Exception] out and never changes an
    attribute of the client.  Unless one of its two reads is cancelled it
    returns normally, whatever the data values are; and when one of the
    reads raises an [Exception], the cache is as it was. *)
Theorem initial_read_is_contained (t : Transport) (nodes : list Node) (w : World) :
  (∀ e, (_populate_initial_data clock t nodes w).1 = Raise e → is_Exception e = false) ∧
  self (after (_populate_initial_data clock t nodes) w) = self w ∧
  (survivable (client_read_values t nodes) = true →
   survivable (client_read_data_values t nodes) = true →
   (_populate_initial_data clock t nodes w).1 = Return tt) ∧
  (∀ e, is_Exception e = true →
        client_read_values t nodes = Raise e →
        _populate_initial_data clock t nodes w = (Return tt, w)) ∧
  (∀ values e, is_Exception e = true →
        client_read_values t nodes = Return values →
        client_read_data_values t nodes = Raise e →
        _populate_initial_data clock t nodes w = (Return tt, w)).
Proof.
  split; [|split; [|split; [|split]]].
  - intros e He.
    destruct (_populate_initial_data clock t nodes w) as [r w1] eqn:Hp. simpl in He.
    subst r. by apply (_populate_initial_data_result clock t nodes w w1).
  - by apply (_populate_initial_data_self t nodes (self w)).
  - intros Hv Hd. unfold _populate_initial_data, try_except.
    unfold mbind at 1, M_bind at 1, await at 1.
    destruct (client_read_values t nodes) as [vs|e1]; simpl in Hv; [|by rewrite Hv].
    unfold mbind at 1, M_bind at 1, await at 1.
    destruct (client_read_data_values t nodes) as [dvs|e2]; simpl in Hd; [|by rewrite Hd].
    match goal with |- context [for_each ?xs ?f w] =>
      destruct (for_each xs f w) as [[[]|e3] w3] eqn:Hloop end; [done|].
    assert (is_Exception e3 = true) as ->; [|done].
    revert Hloop. unfold for_each.
    apply (for_fold_raises (λ e, is_Exception e = true)).
    intros [] [i node] w1 e w2. unfold getitem, mbind, M_bind.
    destruct (dvs !! i) as [dv|]; [|by intros [= <- _]].
    by intros ->%update_tag_value_from_node_raises.
  - intros e He Hr. unfold _populate_initial_data, try_except, await, mbind, M_bind.
    by rewrite Hr, He.
  - intros vs e He Hv Hr. unfold _populate_initial_data, try_except, await, mbind, M_bind.
    by rewrite Hv, Hr, He.
Qed.

(** X9.  A turn of the connection manager never lets an [Exception] out,
    whatever the transport does: only a cancellation ends the loop.  When
    the client is not running or is connected, the turn does nothing. *)
Theorem connection_manager_contains_failures (t : Transport) (w : World) :
  (∀ e, (_connection_manager clock t settings w).1 = Raise e → is_Exception e = false) ∧
  (_running (self w) = false ∨ _is_connected (self w) = true →
   _connection_manager clock t settings w = (Return tt, w)).
Proof.
  split.
  - unfold _connection_manager. unfold mbind at 1, M_bind at 1, gets at 1. simpl.
    destruct (_running (self w)); simpl; [|done].
    unfold mbind at 1, M_bind at 1, is_connected at 1, gets at 1. simpl.
    destruct (_is_connected (self w)); simpl; [done|].
    unfold try_except at 1.
    match goal with |- context [match ?b w with _ => _ end] =>
      destruct (b w) as [[[]|e0] w1] end; [done|].
    destruct (is_Exception e0) eqn:He0.
    + intros e He. destruct (disconnect t w1) as [r w2] eqn:Hd. simpl in He. subst r.
      by apply (disconnect_raises t w1 w2).
    + by intros e [= <-].
  - intros H. unfold _connection_manager, is_connected, gets, mbind, M_bind. simpl.
    destruct (_running (self w)); simpl; [|done].
    destruct H as [H|H]; [done|]. by rewrite H.
Qed.

End Frame.

(** ** Establishing the subscriptions, stopping, querying *)

Section Establish.
Variable clock : nat → datetime.
Variable settings : Settings.t.

Lemma resolve_loop (t : Transport) (tags : list Tag.t) (acc : list Node) (w : World) :
  Forall (resolvable t) tags →
  for_fold tags acc (λ nodes_to_subscribe tag_config,
    try_except
      (node ← call (client_get_node t (Tag.node_id tag_config));
       modify (on_self (λ c,
         set_node_map (<[node := Tag.name tag_config]> (_node_map c)) c)) ;;
       mret (nodes_to_subscribe ++ [node]))
      is_UaError (λ _, mret nodes_to_subscribe)) w =
  (Return (acc ++ omap (resolved_node t) tags),
   on_self (λ c, set_node_map (map_tags t (_node_map c) tags) c) w).
Proof.
  intros Htags.
  match goal with |- for_fold _ _ ?b _ = _ => set (body := b) end.
  assert (∀ acc tag w, body acc tag w =
            match client_get_node t (Tag.node_id tag) with
            | Return node =>
                (Return (acc ++ [node]),
                 on_self (λ c, set_node_map (<[node := Tag.name tag]> (_node_map c)) c) w)
            | Raise e => if is_UaError e then (Return acc, w) else (Raise e, w)
            end) as Hbody.
  { intros acc' tag w'. unfold body, try_except, call, modify, mbind, M_bind.
    by destruct (client_get_node t (Tag.node_id tag)). }
  clearbody body. revert acc w.
  induction Htags as [|tag tags Htag _ IH]; intros acc w.
  - simpl. rewrite app_nil_r. destruct w as [[] ? ?]. reflexivity.
  - cbn [for_fold]. unfold mbind at 1, M_bind at 1. rewrite Hbody.
    unfold resolvable in Htag. unfold map_tags. cbn [foldl omap list_omap].
    fold (map_tags t).
    destruct (client_get_node t (Tag.node_id tag)) as [node|e] eqn:Hg.
    + assert (resolved_node t tag = Some node) as ->
        by (unfold resolved_node; by rewrite Hg).
      rewrite IH. by rewrite <- app_assoc.
    + assert (resolved_node t tag = None) as ->
        by (unfold resolved_node; by rewrite Hg).
      rewrite Htag. by rewrite IH.
Qed.

(** Each tag whose address resolves has its node mapped, to the name of a
    tag with this node; the other nodes keep their entries. *)
Lemma map_tags_resolved (t : Transport) (m : gmap Node string) (tags : list Tag.t)
    (tag : Tag.t) (node : Node) :
  tag ∈ tags → resolved_node t tag = Some node →
  ∃ tag', tag' ∈ tags ∧ resolved_node t tag' = Some node ∧
          map_tags t m tags !! node = Some (Tag.name tag').
Proof.
  induction tags as [|x tags IH] using rev_ind; [by intros ?%elem_of_nil|].
  intros Htag Hnode. unfold map_tags. rewrite foldl_app. simpl.
  fold (map_tags t m tags).
  destruct (resolved_node t x) as [node'|] eqn:Hx.
  - destruct (decide (node' = node)) as [->|Hne].
    + exists x. rewrite lookup_insert_eq. split; [|done].
      apply elem_of_app. right. by left.
    + rewrite lookup_insert_ne by done.
      apply elem_of_app in Htag as [Htag|Htag%list_elem_of_singleton]; [|congruence].
      destruct (IH Htag Hnode) as (tag' & Htag' & ? & ?).
      exists tag'. split; [|done]. apply elem_of_app. by left.
  - apply elem_of_app in Htag as [Htag|Htag%list_elem_of_singleton]; [|congruence].
    destruct (IH Htag Hnode) as (tag' & Htag' & ? & ?).
    exists tag'. split; [|done]. apply elem_of_app. by left.
Qed.

Lemma map_tags_unresolved (t : Transport) (m : gmap Node string) (tags : list Tag.t)
    (node : Node) :
  (∀ tag, tag ∈ tags → resolved_node t tag ≠ Some node) →
  map_tags t m tags !! node = m !! node.
Proof.
  induction tags as [|x tags IH] using rev_ind; [done|].
  intros Hnone. unfold map_tags. rewrite foldl_app. simpl.
  fold (map_tags t m tags).
  assert (map_tags t m tags !! node = m !! node) as Htags.
  { apply IH. intros tag Htag. apply Hnone. apply elem_of_app. by left. }
  destruct (resolved_node t x) as [node'|] eqn:Hx; [|done].
  rewrite lookup_insert_ne; [done|]. intros ->.
  apply (Hnone x); [|done]. apply elem_of_app. right. by left.
Qed.

Lemma resolved_node_Some (t : Transport) (tag : Tag.t) (node : Node) :
  resolved_node t tag = Some node ↔ client_get_node t (Tag.node_id tag) = Return node.
Proof.
  unfold resolved_node. destruct (client_get_node t (Tag.node_id tag)); split; congruence.
Qed.

(** X10.  On a connected client, when the subscription is created, every
    address resolves or is refused with [ua.UaError], and the data change
    subscription is accepted, [_initialize_subscriptions] leaves the
    client connected with this subscription; each tag whose address
    resolves has its node mapped to the name of a tag with this node (a
    refused address is skipped and does not stop the others), and a node
    that no tag resolves to keeps its entry. *)
Theorem subscriptions_map_resolvable_tags
    (t : Transport) (sub : Subscription) (w : World) :
  _is_connected (self w) = true →
  client_create_subscription t = Return sub →
  Forall (resolvable t) (tags_to_process settings) →
  (∀ nodes, subscribe_data_change t nodes = Return tt) →
  let w' := after (_initialize_subscriptions clock t settings) w in
  _is_connected (self w') = true ∧
  subscription (self w') = Some sub ∧
  _data_store (self w') = _data_store (self w) ∧
  (∀ tag node,
     tag ∈ tags_to_process settings →
     client_get_node t (Tag.node_id tag) = Return node →
     ∃ tag', tag' ∈ tags_to_process settings ∧
             client_get_node t (Tag.node_id tag') = Return node ∧
             _node_map (self w') !! node = Some (Tag.name tag')) ∧
  (∀ node,
     (∀ tag, tag ∈ tags_to_process settings →
             client_get_node t (Tag.node_id tag) ≠ Return node) →
     _node_map (self w') !! node = _node_map (self w) !! node).
Proof.
  intros Hc Hsub Htags Hdc.
  assert (self (after (_initialize_subscriptions clock t settings) w) =
          set_node_map (map_tags t (_node_map (self w)) (tags_to_process settings))
            (set_subscription (Some sub) (self w))) as Hself.
  { unfold after, _initialize_subscriptions.
    unfold mbind at 1, M_bind at 1, is_connected at 1, gets. simpl. rewrite Hc. simpl.
    unfold try_except at 1. unfold mbind at 1, M_bind at 1, await at 1. rewrite Hsub.
    unfold mbind at 1, M_bind at 1, modify at 1.
    unfold mbind at 1, M_bind at 1.
    fold (tags_to_process settings). rewrite (resolve_loop t _ [] _ Htags). simpl.
    destruct (omap (resolved_node t) (tags_to_process settings)) as [|n ns]; [done|].
    unfold mbind at 1, M_bind at 1, await at 1. rewrite Hdc.
    match goal with |- context [_populate_initial_data clock t ?ns ?w1] =>
      pose proof (_populate_initial_data_self clock t ns (self w1) w1 eq_refl) as Hp;
      unfold after in Hp;
      destruct (_populate_initial_data clock t ns w1) as [[[]|e] w2] eqn:Hpop
    end; simpl in Hp.
    - simpl. by rewrite Hp.
    - rewrite (_populate_initial_data_result clock t _ _ _ _ Hpop). simpl. by rewrite Hp. }
  simpl. rewrite Hself. simpl. split; [done|]. split; [done|]. split; [done|]. split.
  - intros tag node Htag Hnode%resolved_node_Some.
    destruct (map_tags_resolved t (_node_map (self w)) _ tag node Htag Hnode)
      as (tag' & Htag' & Hnode'%resolved_node_Some & Hmap).
    by exists tag'.
  - intros node Hnone. apply map_tags_unresolved.
    intros tag Htag Hnode%resolved_node_Some. by apply (Hnone tag).
Qed.

End Establish.

Section StopAndQuery.
Variable clock : nat → datetime.
Variable settings : Settings.t.

Lemma teardown_torn_down (w : World) : torn_down (teardown w).
Proof. done. Qed.

(** X11.  [stop] on a running client, when the wait for the manager task
    ends normally or by its cancellation, leaves the client not running
    and with no session: the connected flag is down, there is no
    subscription and no node is mapped.  The cache is as before, and
    [stop] returns normally unless the transport's disconnect is itself
    cancelled. *)
Theorem stop_releases_session (ops : list Op) (t : Transport) :
  let w := run clock settings ops (__init__ clock settings) in
  _running (self w) = true →
  (∀ e, await_connection_task t = Raise e → e = CancelledError) →
  let w' := after (stop t) w in
  _running (self w') = false ∧
  torn_down w' ∧
  cache w' = cache w ∧
  (survivable (client_disconnect t) = true → (stop t w).1 = Return tt).
Proof.
  intros w Hr Htask.
  pose proof (run_settled clock settings ops) as Hsettled. fold w in Hsettled.
  set (w1 := on_self (set_running false) w).
  assert (stop t w = disconnect t w1) as Hstop.
  { unfold stop. unfold mbind at 1, M_bind at 1, gets at 1. simpl. rewrite Hr. simpl.
    unfold mbind at 1, M_bind at 1, modify at 1. fold w1.
    unfold mbind at 1, M_bind at 1, gets at 1. simpl.
    unfold mbind at 1, M_bind at 1.
    destruct (_connection_task (self w)); [|done].
    unfold try_except, await.
    destruct (await_connection_task t) as [[]|e] eqn:He; [done|].
    by rewrite (Htask e). }
  simpl. unfold after. rewrite Hstop.
  pose proof (disconnect_after t w1) as Hafter. unfold after in Hafter. rewrite Hafter.
  rewrite disconnect_result. simpl.
  destruct (_is_connected (self w)) eqn:Hc.
  - repeat split. destruct (client_disconnect t) as [[]|e]; simpl; [done|]. by intros ->.
  - destruct (Hsettled Hc) as [Hsub Hmap]. by repeat split.
Qed.

(** X12.  [get_all_tags] and [get_tag_by_name] read the same store and
    change nothing: an object is in the list of all tags exactly when
    some name gives it.  In every state of the process the list has no
    object twice, so no two tags share an object. *)
Theorem queries_agree (ops : list Op) :
  let w := run clock settings ops (__init__ clock settings) in
  ∃ ls,
    get_all_tags w = (Return ls, w) ∧
    NoDup ls ∧
    ∀ l, l ∈ ls ↔ ∃ name, get_tag_by_name name w = (Return (Some l), w).
Proof.
  intros w.
  pose proof (run_well_stored clock settings ops) as Hw. fold w in Hw.
  exists (map_to_list (_data_store (self w))).*2. split; [done|]. split.
  - apply NoDup_fmap_2_strong; [|apply NoDup_map_to_list].
    intros [k1 l1] [k2 l2] H1%elem_of_map_to_list H2%elem_of_map_to_list. simpl.
    intros <-. apply Hw in H1, H2. congruence.
  - intros l. rewrite list_elem_of_fmap. unfold get_tag_by_name, gets. split.
    + intros ([name l'] & -> & Hl%elem_of_map_to_list). exists name. simpl. by rewrite Hl.
    + intros [name [= Hl]]. exists (name, l). split; [done|]. by apply elem_of_map_to_list.
Qed.

End StopAndQuery.

(** ** A tag that has received no data *)

Ltac heap_atom :=
  first
    [ apply preserves_modify; intros ? ?; done
    | apply preserves_utcnow; intros ? ? ?; done ].

Section Silent.
Variable clock : nat → datetime.
Variable settings : Settings.t.

(** The object of a tag keeps its state through a notification that is
    not handed to the tag. *)
Lemma update_tag_value_from_node_kept
    (node : Node) (data_value : DataValue.t) (w : World) (name : string) (l : loc) :
  well_stored w →
  _data_store (self w) !! name = Some l →
  ¬ routed (self w) node name →
  heap (after (update_tag_value_from_node clock node data_value) w) !! l = heap w !! l.
Proof.
  intros Hw Hl Hnot.
  destruct (_node_map (self w) !! node) as [name'|] eqn:Hnode.
  - destruct (decide (name' = name)) as [->|Hne].
    + assert (str_bool name = false) as Hs.
      { destruct (str_bool name) eqn:Hs; [|done]. by destruct Hnot. }
      unfold after, update_tag_value_from_node, gets, mbind, M_bind. simpl.
      by rewrite Hnode, Hs.
    + apply update_tag_value_from_node_other. intros name'' Hname'' Hl''.
      rewrite Hnode in Hname''. injection Hname'' as <-.
      apply Hw in Hl, Hl''. congruence.
  - unfold after. by rewrite update_tag_value_from_node_unmapped.
Qed.

Lemma kept_well_stored (d : gmap string loc) (ns : list string) (w : World) :
  (∀ k l, d !! k = Some l → ns !! l = Some k) → kept d ns w → well_stored w.
Proof. intros Hd (Hstore & Hnames & _) k l. rewrite Hstore, Hnames. apply Hd. Qed.

Lemma try_except_mret_after {A} (body : M A) (catches : Exn → bool) (a : A) (w : World) :
  after (try_except body catches (λ _, mret a)) w = after body w.
Proof.
  unfold after, try_except. destruct (body w) as [[a'|e] w']; [done|].
  by destruct (catches e).
Qed.

(** An update that returns did not meet a data value it raises for. *)
Lemma update_tag_value_from_node_returns
    (node : Node) (data_value : DataValue.t) (w w' : World) :
  update_tag_value_from_node clock node data_value w = (Return tt, w') →
  ¬ update_raises (self w) node data_value.
Proof.
  intros Hret (name & [Hnode Hs] & [l Hl] & Hmissing). revert Hret.
  unfold update_tag_value_from_node, gets, mbind, M_bind. simpl.
  rewrite Hnode, Hs. simpl. rewrite Hl.
  unfold getattr, setattr, modify, raise.
  destruct Hmissing as [-> | Hsc]; [done|].
  destruct (DataValue.Value data_value); [|done]. simpl. by rewrite Hsc.
Qed.

(** The loop of the bulk read, from the position [k] on. *)
Lemma populate_loop_kept
    (data_values : list DataValue.t) (c : OpcuaClient)
    (d : gmap string loc) (ns : list string) (name : string) (l : loc)
    (nodes : list Node) (k : nat) (w : World) :
  (∀ k l, d !! k = Some l → ns !! l = Some k) →
  d !! name = Some l →
  kept d ns w →
  self w = c →
  (∀ i node data_value,
     nodes !! i = Some node →
     data_values !! (k + i) = Some data_value →
     (∀ j node_j data_value_j,
        j < i → nodes !! j = Some node_j →
        data_values !! (k + j) = Some data_value_j →
        ¬ update_raises c node_j data_value_j) →
     ¬ routed c node name) →
  heap (after (for_each (imap (λ i node, (k + i, node)) nodes) (λ '(i, node),
          data_value ← getitem data_values i;
          update_tag_value_from_node clock node data_value)) w) !! l
  = heap w !! l.
Proof.
  intros Hd Hl. revert k w.
  induction nodes as [|n nodes IH]; intros k w Hkept Hself Hnot; [done|].
  unfold for_each, after. cbn [imap for_fold]. unfold mbind at 1, M_bind at 1.
  unfold getitem, mbind at 1, M_bind at 1. rewrite Nat.add_0_r.
  destruct (data_values !! k) as [dv|] eqn:Hdv; [|done].
  cbn [mret M_ret].
  pose proof (step_kept clock settings d ns (DataChange n dv) w Hkept) as Hk.
  pose proof (update_tag_value_from_node_self clock n dv (self w) w eq_refl) as Hs.
  pose proof (update_tag_value_from_node_kept n dv w name l) as Hh.
  pose proof (update_tag_value_from_node_returns n dv w) as Hr.
  simpl in Hk. unfold after in Hk, Hs, Hh.
  assert (heap (update_tag_value_from_node clock n dv w).2 !! l = heap w !! l) as Hheap.
  { apply Hh.
    - by apply (kept_well_stored d ns).
    - by destruct Hkept as (-> & _).
    - rewrite Hself. apply (Hnot 0 n dv); [done|by rewrite Nat.add_0_r|].
      intros j ? ? Hj. lia. }
  destruct (update_tag_value_from_node clock n dv w) as [[[]|e] w'] eqn:Hupd;
    simpl in *; [|done].
  rewrite <- Hheap.
  specialize (IH (S k) w' Hk). unfold for_each, after in IH.
  rewrite (imap_ext _ (λ i node, (S k + i, node))); [apply IH|].
  - congruence.
  - intros i node dv' Hnode Hdv' Hearlier.
    apply (Hnot (S i) node dv'); [done|by rewrite Nat.add_succ_r|].
    intros [|j] node_j dv_j Hj Hnode_j Hdv_j.
    + simpl in Hnode_j. injection Hnode_j as <-.
      rewrite Nat.add_0_r, Hdv in Hdv_j. injection Hdv_j as <-.
      rewrite <- Hself. by apply (Hr w').
    + apply (Hearlier j node_j dv_j); [lia|done|].
      by rewrite Nat.add_succ_r in Hdv_j.
  - intros i node _. simpl. by rewrite Nat.add_succ_r.
Qed.

Lemma _populate_initial_data_kept
    (t : Transport) (nodes : list Node) (w : World)
    (d : gmap string loc) (ns : list string) (name : string) (l : loc) :
  (∀ k l, d !! k = Some l → ns !! l = Some k) →
  kept d ns w →
  d !! name = Some l →
  (∀ values data_values i node data_value,
     client_read_values t nodes = Return values →
     client_read_data_values t nodes = Return data_values →
     nodes !! i = Some node →
     data_values !! i = Some data_value →
     (∀ j node_j data_value_j,
        j < i → nodes !! j = Some node_j →
        data_values !! j = Some data_value_j →
        ¬ update_raises (self w) node_j data_value_j) →
     ¬ routed (self w) node name) →
  heap (after (_populate_initial_data clock t nodes) w) !! l = heap w !! l.
Proof.
  intros Hd Hkept Hl Hnot. unfold _populate_initial_data.
  rewrite try_except_mret_after. unfold after.
  unfold mbind at 1, M_bind at 1, await at 1.
  destruct (client_read_values t nodes) as [values|e] eqn:Hvalues; [|done].
  unfold mbind at 1, M_bind at 1, await at 1.
  destruct (client_read_data_values t nodes) as [dvs|e] eqn:Hdvs; [|done].
  apply (populate_loop_kept dvs (self w) d ns name l nodes 0 w Hd Hl Hkept eq_refl).
  intros i node dv Hnode Hdv Hearlier. by apply (Hnot values dvs i node dv).
Qed.

(** When the loop over the tags returns, every address was resolved or
    refused with [ua.UaError]. *)
Lemma resolve_loop_returns
    (t : Transport) (tags : list Tag.t) (acc nodes : list Node) (w w' : World) :
  for_fold tags acc (λ nodes_to_subscribe tag_config,
    try_except
      (node ← call (client_get_node t (Tag.node_id tag_config));
       modify (on_self (λ c,
         set_node_map (<[node := Tag.name tag_config]> (_node_map c)) c)) ;;
       mret (nodes_to_subscribe ++ [node]))
      is_UaError (λ _, mret nodes_to_subscribe)) w = (Return nodes, w') →
  Forall (resolvable t) tags.
Proof.
  match goal with |- for_fold _ _ ?b _ = _ → _ => set (body := b) end.
  assert (∀ acc tag w, body acc tag w =
            match client_get_node t (Tag.node_id tag) with
            | Return node =>
                (Return (acc ++ [node]),
                 on_self (λ c, set_node_map (<[node := Tag.name tag]> (_node_map c)) c) w)
            | Raise e => if is_UaError e then (Return acc, w) else (Raise e, w)
            end) as Hbody.
  { intros acc' tag w0. unfold body, try_except, call, modify, mbind, M_bind.
    by destruct (client_get_node t (Tag.node_id tag)). }
  clearbody body. revert acc w.
  induction tags as [|tag tags IH]; intros acc w; [by constructor|].
  cbn [for_fold]. unfold mbind at 1, M_bind at 1. rewrite Hbody.
  destruct (client_get_node t (Tag.node_id tag)) as [node|e] eqn:Hg.
  - intros Hrest%IH. constructor; [|done]. unfold resolvable. by rewrite Hg.
  - destruct (is_UaError e) eqn:He; [|done].
    intros Hrest%IH. constructor; [|done]. unfold resolvable. by rewrite Hg.
Qed.

Lemma _initialize_subscriptions_kept
    (t : Transport) (w : World)
    (d : gmap string loc) (ns : list string) (name : string) (l : loc) :
  (∀ k l, d !! k = Some l → ns !! l = Some k) →
  kept d ns w →
  d !! name = Some l →
  ¬ bulk_received settings t w name →
  heap (after (_initialize_subscriptions clock t settings) w) !! l = heap w !! l.
Proof.
  intros Hd Hkept Hl Hnot. unfold _initialize_subscriptions.
  unfold after, mbind at 1, M_bind at 1, is_connected at 1, gets. simpl.
  destruct (_is_connected (self w)) eqn:Hc; simpl; [|done].
  unfold try_except at 1.
  match goal with |- context [match ?b w with _ => _ end] => set (body := b) end.
  assert (∀ r w1, body w = (r, w1) → heap w1 !! l = heap w !! l) as Hbody.
  { unfold body. unfold mbind at 1, M_bind at 1, await at 1.
    destruct (client_create_subscription t) as [sub|e0] eqn:Hsub;
      [|by intros r w1 [= <- <-]].
    unfold mbind at 1, M_bind at 1, modify at 1.
    unfold mbind at 1, M_bind at 1.
    fold (tags_to_process settings).
    match goal with |- context [for_fold ?xs ?acc ?f ?w0] =>
      assert (same_cache w (after (for_fold xs acc f) w0)) as Hsame
        by (apply preserves_for_fold;
            [intros; preserves_client; same_cache_atom | done]);
      unfold after in Hsame;
      destruct (for_fold xs acc f w0) as [[nodes|e0] w2] eqn:Hloop
    end; simpl in Hsame; [|intros r w1 [= <- <-]; by destruct Hsame as [_ ->]].
    pose proof (resolve_loop_returns _ _ _ _ _ _ Hloop) as Htags.
    rewrite (resolve_loop t _ [] _ Htags) in Hloop.
    injection Hloop as <- <-. simpl.
    destruct (omap (resolved_node t) (tags_to_process settings)) as [|n nodes] eqn:Hnodes;
      [by intros r w1 [= <- <-]|].
    unfold mbind at 1, M_bind at 1, await at 1.
    destruct (subscribe_data_change t (n :: nodes)) as [[]|e0] eqn:Hdc;
      [|by intros r w1 [= <- <-]].
    intros r w1 Hpop.
    match type of Hpop with _populate_initial_data _ _ _ ?w2 = _ =>
      pose proof (_populate_initial_data_kept t (n :: nodes) w2 d ns name l Hd) as Hp
    end.
    unfold after in Hp. rewrite Hpop in Hp. simpl in Hp. apply Hp; [done..|].
    intros values dvs i node dv Hvalues Hdvs Hnode Hdv Hearlier Hrouted.
    apply Hnot. unfold bulk_received. rewrite Hnodes.
    split; [done|]. split; [by eexists|]. split; [done|]. split; [done|].
    split; [by eexists|]. exists dvs, i, node, dv. repeat split; try done.
    - apply Hrouted.
    - apply Hrouted. }
  destruct (body w) as [[[]|e] w1] eqn:Ebody; simpl.
  - by apply (Hbody (Return tt)).
  - destruct (is_Exception e).
    + destruct (disconnect_same_cache t w1 w1) as [_ Hh]; [done|].
      unfold after in Hh. rewrite Hh. by apply (Hbody (Raise e)).
    + by apply (Hbody (Raise e)).
Qed.

Lemma _connection_manager_kept
    (t : Transport) (w : World)
    (d : gmap string loc) (ns : list string) (name : string) (l : loc) :
  (∀ k l, d !! k = Some l → ns !! l = Some k) →
  kept d ns w →
  d !! name = Some l →
  ¬ received settings (ConnectionManager t) w name →
  heap (after (_connection_manager clock t settings) w) !! l = heap w !! l.
Proof.
  intros Hd Hkept Hl Hnot. unfold _connection_manager.
  unfold after, mbind at 1, M_bind at 1, gets at 1. simpl.
  destruct (_running (self w)) eqn:Hr; simpl; [|done].
  unfold mbind at 1, M_bind at 1, is_connected at 1, gets at 1. simpl.
  destruct (_is_connected (self w)) eqn:Hc; simpl; [done|].
  unfold try_except at 1. unfold mbind at 1, M_bind at 1.
  destruct (client_connect t) as [[]|e] eqn:Ec.
  - set (w1 := on_self (set_is_connected true) w).
    assert (connect t w = (Return tt, w1)) as ->
      by (unfold connect, await, mbind, M_bind, modify; by rewrite Ec).
    pose proof (_initialize_subscriptions_kept t w1 d ns name l Hd) as Hinit.
    unfold after in Hinit.
    assert (heap (_initialize_subscriptions clock t settings w1).2 !! l = heap w !! l)
      as Hheap.
    { apply Hinit; [done..|]. intros Hb. by apply Hnot. }
    destruct (_initialize_subscriptions clock t settings w1) as [[[]|e] w2];
      simpl in *; [done|].
    destruct (is_Exception e); [|done].
    destruct (disconnect_same_cache t w2 w2) as [_ Hh]; [done|].
    unfold after in Hh. by rewrite Hh.
  - assert (connect t w = (Raise e, w)) as ->
      by (unfold connect, await, mbind, M_bind, modify; by rewrite Ec).
    destruct (is_Exception e); [|done].
    destruct (disconnect_same_cache t w w) as [_ Hh]; [done|].
    unfold after in Hh. by rewrite Hh.
Qed.

Lemma step_object_kept
    (op : Op) (w : World)
    (d : gmap string loc) (ns : list string) (name : string) (l : loc) :
  (∀ k l, d !! k = Some l → ns !! l = Some k) →
  kept d ns w →
  d !! name = Some l →
  ¬ received settings op w name →
  heap (step clock settings op w) !! l = heap w !! l.
Proof.
  intros Hd Hkept Hl Hnot.
  assert (∀ {A} (m : M A), preserves (λ w', heap w' = heap w) m →
                         heap (after m w) !! l = heap w !! l) as Hother.
  { intros A m Hm. by rewrite (Hm w eq_refl). }
  destruct op; simpl.
  - apply Hother. preserves_client; heap_atom.
  - apply Hother. preserves_client; heap_atom.
  - apply Hother. preserves_client; heap_atom.
  - apply Hother. preserves_client; heap_atom.
  - by apply (_initialize_subscriptions_kept t w d ns name l).
  - by apply (_connection_manager_kept t w d ns name l).
  - apply (update_tag_value_from_node_kept node data_value w name l); [| |done].
    + by apply (kept_well_stored d ns).
    + by destruct Hkept as (-> & _).
  - apply Hother. preserves_client; heap_atom.
  - apply Hother. preserves_client; heap_atom.
  - apply Hother. preserves_client; heap_atom.
  - apply Hother. preserves_client; heap_atom.
Qed.

Lemma run_object_kept
    (ops : list Op) (w : World)
    (d : gmap string loc) (ns : list string) (name : string) (l : loc) :
  (∀ k l, d !! k = Some l → ns !! l = Some k) →
  kept d ns w →
  d !! name = Some l →
  silent clock settings name ops w →
  heap (run clock settings ops w) !! l = heap w !! l.
Proof.
  intros Hd. revert w. induction ops as [|op ops IH]; intros w Hkept Hl Hsilent; [done|].
  destruct Hsilent as [Hnot Hsilent]. simpl.
  rewrite IH; [|by apply step_kept|done..].
  by apply (step_object_kept op w d ns name l).
Qed.

(** A tag that has received no data since [__init__] has the object that
    [__init__] built for it, with the state it was built in. *)
Lemma run_silent_initial (ops : list Op) (name : string) (o : LiveTag.t) :
  silent clock settings name ops (__init__ clock settings) →
  cache (run clock settings ops (__init__ clock settings)) !! name = Some o →
  LiveTag.value o = PyNone ∧ LiveTag.status o = "Uncertain".
Proof.
  intros Hsilent. rewrite cache_lookup, run_store.
  destruct (_data_store (self (__init__ clock settings)) !! name) as [l|] eqn:Hl;
    [|done].
  simpl. unfold deref.
  rewrite (run_object_kept ops _ _ _ name l (__init___well_stored clock settings)
             (__init___kept clock settings) Hl Hsilent).
  intros Ho%list_elem_of_lookup_2.
  pose proof (__init___initial clock settings) as Hinit.
  rewrite Forall_forall in Hinit. by destruct (Hinit o Ho) as (?&?&_).
Qed.

(** While no connection has succeeded no tag receives data. *)
Lemma never_connects_silent (ops : list Op) (name : string) :
  Forall (λ op, never_connects op = true) ops →
  silent clock settings name ops (__init__ clock settings).
Proof.
  assert (∀ w0 w, Forall (λ op, never_connects op = true) ops →
                  cold w0 w → silent clock settings name ops w) as H.
  { intros w0. induction ops as [|op ops IH]; intros w Hops Hcold; [done|].
    inversion Hops as [|? ? Hop Hops']; subst. split.
    - destruct Hcold as (Hc & Hmap & _). destruct op; simpl; try (by intros []).
      + unfold bulk_received. intros (Hc' & _). congruence.
      + simpl in Hop. intros (_ & _ & Hconnect & _). by rewrite Hconnect in Hop.
      + unfold routed. intros [Hnode _]. by rewrite Hmap, lookup_empty in Hnode.
    - apply IH; [done|]. by apply step_cold. }
  intros Hops. apply (H (__init__ clock settings)); [done|].
  destruct (__init___torn_down clock settings) as (?&_&?). by repeat split.
Qed.

(** C5, as the code has it.  [get_tag_by_name] returns [None] exactly for
    the names that are not configured.  For a configured name it returns
    the object of the tag, and as long as the tag has received no data
    (no notification and no data value of a bulk read was handed to it)
    this object has the value [None] and the status "Uncertain". *)
Theorem get_tag_by_name_found_iff_configured (ops : list Op) (name : string) :
  let w := run clock settings ops (__init__ clock settings) in
  (get_tag_by_name name w = (Return None, w) ↔ name ∉ configured_names settings) ∧
  (name ∈ configured_names settings →
   ∃ l o, get_tag_by_name name w = (Return (Some l), w) ∧
          deref w l = Some o ∧
          LiveTag.name o = name ∧
          (silent clock settings name ops (__init__ clock settings) →
           LiveTag.value o = PyNone ∧ LiveTag.status o = "Uncertain")).
Proof.
  intros w. pose proof (run_dom clock settings ops) as Hdom. fold w in Hdom.
  pose proof (run_well_stored clock settings ops) as Hw. fold w in Hw.
  assert (name ∈ configured_names settings ↔ is_Some (_data_store (self w) !! name)) as Hin.
  { by rewrite <- elem_of_dom, Hdom, elem_of_list_to_set. }
  unfold get_tag_by_name, gets. split.
  - rewrite Hin, <- eq_None_not_Some. split; [by intros [= ->] | by intros ->].
  - intros [l Hl]%Hin. destruct (well_stored_deref w name l Hw Hl) as (o & Ho & Hname).
    exists l, o. rewrite Hl. repeat split; try done.
    all: apply (run_silent_initial ops name); [done|].
    all: fold w; by rewrite cache_lookup, Hl.
Qed.

End Silent.

(** ** The REST handlers *)



(** ** The project root *)



(** ** The further properties on the plant with two tags *)

Lemma late_notification_dropped_witness :
  let w := run Plant.clock Plant.settings
             [Start; ConnectionManager Plant.server_up; Disconnect Plant.server_up]
             (__init__ Plant.clock Plant.settings) in
  _is_connected (self w) = false ∧
  update_tag_value_from_node Plant.clock 1 (Plant.good 11 None) w = (Return tt, w).
Proof.
  intros w. assert (_is_connected (self w) = false) as Hc by (vm_compute; reflexivity).
  split; [exact Hc|].
  exact (late_notification_dropped Plant.clock Plant.settings
           [Start; ConnectionManager Plant.server_up; Disconnect Plant.server_up]
           1 (Plant.good 11 None) Hc).
Defined.

Lemma cache_frozen_while_disconnected_witness :
  let ops := [Start; ConnectionManager Plant.server_up; Disconnect Plant.server_up] in
  let w := run Plant.clock Plant.settings ops (__init__ Plant.clock Plant.settings) in
  let op := ConnectionManager Plant.server_down in
  _is_connected (self w) = false ∧
  never_connects op = true ∧
  cache (step Plant.clock Plant.settings op w) = cache w ∧
  _is_connected (self (step Plant.clock Plant.settings op w)) = false ∧
  _node_map (self (step Plant.clock Plant.settings op w)) = ∅.
Proof.
  intros ops w op.
  assert (_is_connected (self w) = false) as Hc by (vm_compute; reflexivity).
  assert (never_connects op = true) as Hop by reflexivity.
  split; [exact Hc|]. split; [exact Hop|].
  exact (cache_frozen_while_disconnected Plant.clock Plant.settings ops op Hc Hop).
Defined.

Lemma mapped_node_has_tag_witness :
  let ops := [Start; ConnectionManager Plant.server_up] in
  let w := run Plant.clock Plant.settings ops (__init__ Plant.clock Plant.settings) in
  _node_map (self w) !! 1 = Some "A" ∧
  "A" ∈ configured_names Plant.settings ∧
  ∃ l o, _data_store (self w) !! "A" = Some l ∧ deref w l = Some o ∧ LiveTag.name o = "A".
Proof.
  intros ops w.
  assert (_node_map (self w) !! 1 = Some "A") as Hnode by (vm_compute; reflexivity).
  split; [exact Hnode|].
  exact (mapped_node_has_tag Plant.clock Plant.settings ops 1 "A" Hnode).
Defined.

Lemma notification_touches_one_tag_witness :
  let ops := [Start; ConnectionManager Plant.server_up] in
  let w := run Plant.clock Plant.settings ops (__init__ Plant.clock Plant.settings) in
  let w' := after (update_tag_value_from_node Plant.clock 1 (Plant.good 11 None)) w in
  _node_map (self w) !! 1 = Some "A" ∧
  self w' = self w ∧
  cache w' !! "B" = cache w !! "B" ∧
  LiveTag.value <$> cache w' !! "A" = Some (PyInt 11).
Proof.
  intros ops w w'.
  assert (_node_map (self w) !! 1 = Some "A") as Hnode by (vm_compute; reflexivity).
  split; [exact Hnode|].
  destruct (notification_touches_one_tag Plant.clock Plant.settings ops 1
              (Plant.good 11 None) "A" Hnode) as (Hself & Hother & _).
  split; [exact Hself|]. split; [by apply Hother|]. vm_compute; reflexivity.
Defined.

Lemma subscriptions_map_resolvable_tags_witness :
  let w := run Plant.clock Plant.settings [Start; Connect Faults.bad_address]
             (__init__ Plant.clock Plant.settings) in
  let w' := after (_initialize_subscriptions Plant.clock Faults.bad_address Plant.settings) w in
  _is_connected (self w) = true ∧
  client_create_subscription Faults.bad_address = Return 8 ∧
  client_get_node Faults.bad_address "ns=2;i=1" = Raise UaError ∧
  Forall (resolvable Faults.bad_address) (tags_to_process Plant.settings) ∧
  _is_connected (self w') = true ∧
  subscription (self w') = Some 8 ∧
  ∃ tag', tag' ∈ tags_to_process Plant.settings ∧
          client_get_node Faults.bad_address (Tag.node_id tag') = Return 2 ∧
          _node_map (self w') !! 2 = Some (Tag.name tag').
Proof.
  intros w w'.
  assert (_is_connected (self w) = true) as Hc by (vm_compute; reflexivity).
  assert (Forall (resolvable Faults.bad_address) (tags_to_process Plant.settings)) as Htags
    by (repeat constructor).
  split; [exact Hc|]. split; [reflexivity|]. split; [reflexivity|]. split; [exact Htags|].
  destruct (subscriptions_map_resolvable_tags Plant.clock Plant.settings
              Faults.bad_address 8 w Hc eq_refl Htags (λ _, eq_refl))
    as (Hc' & Hsub & _ & Hmapped & _).
  split; [exact Hc'|]. split; [exact Hsub|].
  apply (Hmapped (Tag.mk "B" "ns=2;i=2") 2); [|reflexivity].
  right. left.
Defined.

Lemma stop_releases_session_witness :
  let ops := [Start; ConnectionManager Plant.server_up] in
  let w := run Plant.clock Plant.settings ops (__init__ Plant.clock Plant.settings) in
  let w' := after (stop Plant.server_up) w in
  _running (self w) = true ∧
  await_connection_task Plant.server_up = Raise CancelledError ∧
  _running (self w') = false ∧
  torn_down w' ∧
  cache w' = cache w ∧
  (stop Plant.server_up w).1 = Return tt.
Proof.
  intros ops w w'.
  assert (_running (self w) = true) as Hr by (vm_compute; reflexivity).
  assert (∀ e, await_connection_task Plant.server_up = Raise e → e = CancelledError)
    as Htask by (by intros e [= <-]).
  split; [exact Hr|]. split; [reflexivity|].
  destruct (stop_releases_session Plant.clock Plant.settings ops Plant.server_up Hr Htask)
    as (H1 & H2 & H3 & H4).
  split; [exact H1|]. split; [exact H2|]. split; [exact H3|]. by apply H4.
Defined.


(** C5 on a connected client: the server refuses the address of tag A, the
    bulk read seeds B, and A, which has received nothing, is found with
    the value [None] and the status "Uncertain". *)
Lemma get_tag_by_name_found_iff_configured_witness :
  let ops := [Start; ConnectionManager Faults.bad_address] in
  let w := run Plant.clock Plant.settings ops (__init__ Plant.clock Plant.settings) in
  _is_connected (self w) = true ∧
  cache w !! "B" = Some (LiveTag.mk "B" "ns=2;i=2" (PyInt 20) "Good" (Some 1002%Z)) ∧
  silent Plant.clock Plant.settings "A" ops (__init__ Plant.clock Plant.settings) ∧
  ∃ l o, get_tag_by_name "A" w = (Return (Some l), w) ∧
         deref w l = Some o ∧
         LiveTag.value o = PyNone ∧
         LiveTag.status o = "Uncertain".
Proof.
  intros ops w.
  assert (silent Plant.clock Plant.settings "A" ops (__init__ Plant.clock Plant.settings))
    as Hsilent.
  { split; [by intros []|]. split; [|done].
    intros (_ & _ & _ & Hb).
    destruct Hb as (_ & _ & _ & _ & _ & dvs & i & node & dv & _ & Hnode & _ & [Hmap _] & _).
    assert (omap (resolved_node Faults.bad_address) (tags_to_process Plant.settings) = [2])
      as Hnodes by reflexivity.
    rewrite Hnodes in Hnode. destruct i as [|i]; [|by destruct i].
    injection Hnode as <-. vm_compute in Hmap. discriminate Hmap. }
  split; [vm_compute; reflexivity|]. split; [vm_compute; reflexivity|].
  split; [exact Hsilent|].
  destruct (get_tag_by_name_found_iff_configured Plant.clock Plant.settings ops "A")
    as [_ Hfound].
  destruct Hfound as (l & o & Hget & Ho & _ & Hinitial); [by left|].
  destruct (Hinitial Hsilent) as [Hvalue Hstatus].
  by exists l, o.
Defined.

(** X3 on the plant: the library refuses to wrap [None] as an Int32 (type
    6), and nothing is sent; an integer is written; before the first
    connection the call raises [ConnectionError]. *)
Lemma write_value_bypasses_cache_witness :
  let ua_Variant := λ (value : PyValue) (variant_type : nat),
    match value with
    | PyNone => Raise UaError
    | _ => Return (Variant.mk value)
    end in
  write_value Plant.server_down ua_Variant "ns=2;i=1" PyNone 6 Plant.started
  = (Raise ConnectionError, Plant.started) ∧
  write_value Plant.server_up ua_Variant "ns=2;i=1" (PyInt 3) 6 Plant.live
  = (Return tt, Plant.live) ∧
  write_value Plant.server_up ua_Variant "ns=2;i=1" PyNone 6 Plant.live
  = (Raise UaError, Plant.live).
Proof.
  intros ua_Variant. split; [|split].
  - by destruct (write_value_bypasses_cache Plant.server_down ua_Variant
                   "ns=2;i=1" PyNone 6 Plant.started) as [-> _].
  - by destruct (write_value_bypasses_cache Plant.server_up ua_Variant
                   "ns=2;i=1" (PyInt 3) 6 Plant.live) as [-> _].
  - destruct (write_value_bypasses_cache Plant.server_up ua_Variant
                "ns=2;i=1" PyNone 6 Plant.live) as [_ Hrefused].
    by apply (Hrefused 1).
Defined.
